(** * Brute_Force_RCS/evaluation_utils.py: distribution metrics

    A shallow embedding of the evaluation utilities of the random circuit
    sampling benchmark: the true-distribution builder, the normalisation
    check, the total variation distance, the XEB score and the drivers.

    Conventions of the embedding.
    - A Python [dict[str, float]] is an insertion-ordered association list
      with pairwise distinct keys ([dict_wf]).
    - A raised exception is the [Raise] branch of [result].
    - The metrics are embedded twice.  The first embedding computes with
      exact rationals [Q] and iterates a set as [elements] of a [gset]; it
      carries the statements that do not depend on rounding or on the
      order of additions.  The second, [Binary64], computes with Python's
      ints and binary64 floats, converts and rounds as Python does, and
      takes the iteration order of a set as a parameter; it carries the
      statements about the values the code returns. *)

From Stdlib Require Import QArith Qabs Qpower Lqa Ascii Floats.
From stdpp Require Import gmap strings list.

(** ** Exceptions and results *)

Inductive exn : Type :=
  | ValueError (msg : string)
  | KeyError (key : string)
  | IndexError
  | QiskitError
  | InvalidReference
  | OverflowError.

Inductive result (A : Type) : Type :=
  | Ok (a : A)
  | Raise (e : exn).
Arguments Ok {A} a.
Arguments Raise {A} e.

Definition result_bind {A B : Type} (r : result A) (k : A -> result B) : result B :=
  match r with
  | Ok a => k a
  | Raise e => Raise e
  end.

#[global] Instance result_mbind : MBind result := fun A B k r => result_bind r k.
#[global] Instance result_mret : MRet result := fun A a => Ok a.

(** [returns r q]: the call returned normally with a number equal to [q]. *)
Definition returns (r : result Q) (q : Q) : Prop :=
  match r with
  | Ok v => (v == q)%Q
  | Raise _ => False
  end.


(** ** Dictionaries *)

Definition dict : Type := list (string * Q).

Definition dict_keys (d : dict) : list string := d.*1.
Definition dict_values (d : dict) : list Q := d.*2.

(** Keys of a Python dict are pairwise distinct. *)
Definition dict_wf (d : dict) : Prop := NoDup (dict_keys d).

Fixpoint dict_lookup (d : dict) (key : string) : option Q :=
  match d with
  | [] => None
  | (k, v) :: d' => if decide (k = key) then Some v else dict_lookup d' key
  end.

(** [d[key]] *)
Definition dict_getitem (d : dict) (key : string) : result Q :=
  match dict_lookup d key with
  | Some v => Ok v
  | None => Raise (KeyError key)
  end.

(** [d.get(key, default)] *)
Definition dict_get (d : dict) (key : string) (default : Q) : Q :=
  match dict_lookup d key with
  | Some v => v
  | None => default
  end.

(** [d[key] = v]: an existing key keeps its position, a new one is appended. *)
Fixpoint dict_setitem (d : dict) (key : string) (v : Q) : dict :=
  match d with
  | [] => [(key, v)]
  | (k, v') :: d' =>
      if decide (k = key) then (k, v) :: d' else (k, v') :: dict_setitem d' key v
  end.

(** [set(d.keys())] *)
Definition key_set (d : dict) : gset string := list_to_set (dict_keys d).

(** ** The builtin [sum] over a generator

    [sum] starts from [0] and adds the items from left to right; an item
    whose evaluation raises ends the sum with that exception. *)

Fixpoint py_sum_from {A : Type} (acc : Q) (item : A -> result Q) (l : list A) : result Q :=
  match l with
  | [] => Ok acc
  | x :: l' =>
      match item x with
      | Ok v => py_sum_from (acc + v)%Q item l'
      | Raise e => Raise e
      end
  end.

Definition py_sum {A : Type} (item : A -> result Q) (l : list A) : result Q :=
  py_sum_from 0%Q item l.

(** The mathematical sum the specification speaks of. *)
Fixpoint Qsum {A : Type} (f : A -> Q) (l : list A) : Q :=
  match l with
  | [] => 0%Q
  | x :: l' => (f x + Qsum f l')%Q
  end.

(** ** check_distribution_normalization *)

(** [np.isclose(a, b)] with NumPy's default tolerances:
    [absolute(a - b) <= atol + rtol * absolute(b)]. *)
Definition np_rtol : Q := 1 # 100000.
Definition np_atol : Q := 1 # 100000000.

Definition np_isclose (a b : Q) : bool :=
  Qle_bool (Qabs (a - b)) (np_atol + np_rtol * Qabs b).

(** Lines written to standard output. *)
Inductive stdout_line : Type :=
  | Warning_total_probability (total : Q).

Definition check_distribution_normalization (distribution : dict) : result (bool * list stdout_line) :=
  total_probability ← py_sum Ok (dict_values distribution);
  if np_isclose total_probability 1
  then Ok (true, [])
  else Ok (false, [Warning_total_probability total_probability]).

(** ** total_variation_distance *)

Definition same_basis_states_msg : string :=
  "Distributions must have the same basis states.".

Definition total_variation_distance (distribution1 distribution2 : dict) : result Q :=
  let keys1 := key_set distribution1 in
  let keys2 := key_set distribution2 in
  if decide (keys1 ≠ keys2) then Raise (ValueError same_basis_states_msg)
  else
    s ← py_sum (fun key =>
                  p1 ← dict_getitem distribution1 key;
                  p2 ← dict_getitem distribution2 key;
                  Ok (Qabs (p1 - p2)))
               (elements keys1);
    Ok ((1 # 2) * s)%Q.

(** ** compute_xeb *)

Definition compute_xeb (empirical_distribution true_distribution : dict)
    (num_qubits : Z) : result Q :=
  if decide (key_set empirical_distribution ≠ key_set true_distribution)
  then Raise (ValueError same_basis_states_msg)
  else
    xeb_sum ← py_sum (fun state =>
                        p ← dict_getitem true_distribution state;
                        Ok (p * dict_get empirical_distribution state 0)%Q)
                     (dict_keys true_distribution);
    Ok (Qpower 2 num_qubits * xeb_sum - 1)%Q.


(** ** Quantities the specification names *)

(** The probability a distribution gives to a basis state, 0 when absent. *)
Definition prob (d : dict) (key : string) : Q := dict_get d key 0.

(** Sum over all keys of the absolute difference of the two probabilities. *)
Definition abs_difference_sum (d1 d2 : dict) : Q :=
  Qsum (fun key => Qabs (prob d1 key - prob d2 key)) (elements (key_set d1)).

(** Sum over the keys of the true distribution of true times empirical
    probability, a missing empirical entry counting as 0. *)
Definition overlap_sum (empirical true : dict) : Q :=
  Qsum (fun key => prob true key * dict_get empirical key 0)%Q (dict_keys true).

(** A valid probability distribution: distinct keys, values that are not
    negative and sum to 1. *)
Definition is_distribution (d : dict) : Prop :=
  dict_wf d /\ Forall (fun p => 0 <= p)%Q (dict_values d)
  /\ (Qsum id (dict_values d) == 1)%Q.

(** The distributions of the worked examples. *)
Definition one_qubit_zero : dict := [("0", 1); ("1", 0)]%Q.
Definition two_qubit_uniform : dict :=
  [("00", 1 # 4); ("01", 1 # 4); ("10", 1 # 4); ("11", 1 # 4)]%Q.
Definition two_qubit_on_00 : dict := [("00", 1); ("01", 0); ("10", 0); ("11", 0)]%Q.
Definition slightly_off : dict := [("0", 1000001 # 1000000)]%Q.

(** ** calculate_true_distribution: basis-state labels *)

(** Binary digits of a positive number, most significant first. *)
Fixpoint pos_bin (p : positive) : string :=
  match p with
  | xH => "1"
  | xO p' => pos_bin p' +:+ "0"
  | xI p' => pos_bin p' +:+ "1"
  end.

Definition bin (i : N) : string :=
  match i with
  | N0 => "0"
  | Npos p => pos_bin p
  end.

Fixpoint zeros (n : nat) : string :=
  match n with
  | O => EmptyString
  | S n' => String "0"%char (zeros n')
  end.

(** [format(i, f'0{width}b')]: the binary digits of [i], padded with zeros
    on the left up to [width] characters, never truncated. *)
Definition format_0b (i : nat) (width : nat) : string :=
  let digits := bin (N.of_nat i) in
  zeros (width - String.length digits) +:+ digits.

(** The loop that appends one label per [i in range(2 ** num_qubits)]. *)
Definition basis_states_loop (num_qubits : nat) : list string :=
  foldl (fun basis_states i => basis_states ++ [format_0b i num_qubits])
        [] (seq 0 (2 ^ num_qubits)).

(** [l[i]] for a non-negative index. *)
Definition list_getitem {A : Type} (l : list A) (i : nat) : result A :=
  match l !! i with
  | Some x => Ok x
  | None => Raise IndexError
  end.

(** [{basis_states[i]: probabilities[i] for i in indices}], the entries
    being stored one by one into [acc]. *)
Fixpoint dict_comprehension (basis_states : list string) (probabilities : list Q)
    (indices : list nat) (acc : dict) : result dict :=
  match indices with
  | [] => Ok acc
  | i :: rest =>
      key ← list_getitem basis_states i;
      value ← list_getitem probabilities i;
      dict_comprehension basis_states probabilities rest (dict_setitem acc key value)
  end.

(** [int(s, 2)] on a string of binary digits, used to read labels back. *)
Definition bit_value (c : ascii) : option N :=
  if decide (c = "0"%char) then Some 0%N
  else if decide (c = "1"%char) then Some 1%N
  else None.

Fixpoint parse_bin_from (acc : N) (s : string) : option N :=
  match s with
  | EmptyString => Some acc
  | String c s' =>
      match bit_value c with
      | Some b => parse_bin_from (2 * acc + b)%N s'
      | None => None
      end
  end.

Definition parse_bin (s : string) : option N := parse_bin_from 0%N s.

(** ** Circuits, the object store and the external collaborators

    A [QuantumCircuit] is a mutable object: the store maps references to
    the current contents of each object, and a method that works in place
    replaces the contents at its reference.  The Qiskit primitives and the
    [circuit_utils] collaborators are variables of the section. *)

Definition loc : Type := positive.

Record world (Circuit Ext : Type) : Type := World {
  heap : gmap loc Circuit;   (* contents of the circuit objects *)
  ext : Ext                  (* state of the collaborators: random source, simulator *)
}.
Arguments World {Circuit Ext} heap ext.
Arguments heap {Circuit Ext} w.
Arguments ext {Circuit Ext} w.

Section Evaluation.
  Context {Circuit NoiseModel Ext : Type}.

(** A computation may change the world and may raise; a raised exception
    keeps the changes made before it. *)
Definition M (A : Type) : Type := world Circuit Ext -> result A * world Circuit Ext.

Definition ret {A : Type} (a : A) : M A := fun w => (Ok a, w).

Definition bind {A B : Type} (m : M A) (k : A -> M B) : M B :=
  fun w =>
    match m w with
    | (Ok a, w') => k a w'
    | (Raise e, w') => (Raise e, w')
    end.

Definition lift {A : Type} (r : result A) : M A := fun w => (r, w).

  Notation "x <~ m ;; k" := (bind m (fun x => k))
    (at level 100, m at next level, right associativity).

  (** Qiskit: [qc.num_qubits], [qc.remove_final_measurements()],
      [qc.measure_all()], [Statevector(qc).probabilities()]. *)
  Variable num_qubits : Circuit -> nat.
  Variable remove_final_measurements : Circuit -> Circuit.
  Variable measure_all : Circuit -> Circuit.
  Variable statevector_probabilities : Circuit -> result (list Q).

  (** circuit_utils: [random_circuit], [create_noise_model],
      [generate_emp_distribution]. *)
  Variable random_circuit : Z -> option Z -> M loc.
  Variable create_noise_model : Q -> M NoiseModel.
  Variable generate_emp_distribution : loc -> Z -> NoiseModel -> option Z -> M dict.

(** Reading an object.  A reference outside the store does not exist in
    Python; the model answers it with [InvalidReference]. *)
Definition read (qc : loc) : M Circuit :=
  fun w =>
    match heap w !! qc with
    | Some c => (Ok c, w)
    | None => (Raise InvalidReference, w)
    end.

(** An in-place method: the object at [qc] is replaced by [f] of it. *)
Definition in_place (f : Circuit -> Circuit) (qc : loc) : M unit :=
  fun w =>
    match heap w !! qc with
    | Some c => (Ok tt, World (<[qc := f c]> (heap w)) (ext w))
    | None => (Raise InvalidReference, w)
    end.

Definition calculate_true_distribution (qc : loc) : M dict :=
  _ <~ in_place remove_final_measurements qc;;
  c <~ read qc;;
  probabilities <~ lift (statevector_probabilities c);;
  let n := num_qubits c in
  let basis_states := basis_states_loop n in
  lift (dict_comprehension basis_states probabilities
          (seq 0 (length probabilities)) []).

Definition tvd_truedist_empdist (n : Z) (noise_rate : Q) (shots : Z)
    (depth : option Z) : M Q :=
  qc <~ random_circuit n depth;;
  true_dist <~ calculate_true_distribution qc;;
  _ <~ in_place measure_all qc;;
  noise <~ create_noise_model noise_rate;;
  noisy_dist <~ generate_emp_distribution qc shots noise depth;;
  lift (total_variation_distance noisy_dist true_dist).

Definition xeb_truedist_empdist_noisy (n : Z) (noise_rate : Q) (shots : Z)
    (depth : option Z) : M Q :=
  qc <~ random_circuit n depth;;
  true_dist <~ calculate_true_distribution qc;;
  _ <~ in_place measure_all qc;;
  noise <~ create_noise_model noise_rate;;
  noisy_dist <~ generate_emp_distribution qc shots noise depth;;
  lift (compute_xeb noisy_dist true_dist n).

Definition xeb_truedist_empdist_ideal (n : Z) (noise_rate : Q) (shots : Z)
    (depth : option Z) : M Q :=
  qc <~ random_circuit n depth;;
  true_dist <~ calculate_true_distribution qc;;
  _ <~ in_place measure_all qc;;
  noise <~ create_noise_model 0;;
  noisy_dist <~ generate_emp_distribution qc shots noise depth;;
  lift (compute_xeb noisy_dist true_dist n).

End Evaluation.

(** ** A reference instance of the Qiskit interface

    Circuits built from X gates and measurements only.  Their state stays
    a basis state, so the exact distribution is an indicator vector.  The
    instance shows that the assumptions made on Qiskit below can be met,
    and supplies concrete circuits to evaluate the builder on. *)

Module XCircuit.

Inductive instruction : Type :=
  | X (q : nat)
  | Measure (q : nat).

Record circuit : Type := Circuit {
    n_qubits : nat;
    data : list instruction
  }.

(** Walking the instructions from the end of the circuit: a measurement
    is final when no kept instruction after it acts on its qubit. *)
Fixpoint strip_final (busy : gset nat) (rev_data : list instruction) : list instruction :=
  match rev_data with
  | [] => []
  | X q :: rest => X q :: strip_final ({[q]} ∪ busy) rest
  | Measure q :: rest =>
      if decide (q ∈ busy) then Measure q :: strip_final busy rest
      else strip_final busy rest
  end.

Definition remove_final_measurements (c : circuit) : circuit :=
  Circuit (n_qubits c) (reverse (strip_final ∅ (reverse (data c)))).

Definition measure_all (c : circuit) : circuit :=
  Circuit (n_qubits c) (data c ++ (Measure <$> seq 0 (n_qubits c))).

(** Index of the basis state reached from |0...0>; qubit [q] is bit [q]. *)
Fixpoint run (n : nat) (index : N) (ops : list instruction) : result N :=
  match ops with
  | [] => Ok index
  | X q :: rest =>
      if decide (q < n)%nat then run n (N.lxor index (2 ^ N.of_nat q)) rest
      else Raise QiskitError
  | Measure _ :: _ => Raise QiskitError
  end.

Definition statevector_probabilities (c : circuit) : result (list Q) :=
  index ← run (n_qubits c) 0%N (data c);
  Ok ((fun i => if decide (N.of_nat i = index) then 1%Q else 0%Q)
        <$> seq 0 (2 ^ n_qubits c)).

Definition store (qc : loc) (c : circuit) : world circuit unit :=
  World {[qc := c]} tt.

Definition calculate_true_distribution (qc : loc) : M dict :=
  calculate_true_distribution (Ext := unit)
    n_qubits remove_final_measurements statevector_probabilities qc.

(** Collaborators for the drivers: [random_circuit] makes a circuit without
    gates at a fixed reference, the noise model is the rate itself, and in
    place of sampling [generate_emp_distribution] gives the exact
    distribution under global depolarizing noise of that rate. *)
Definition random_circuit (n : Z) (depth : option Z) : M (Ext := unit) loc :=
  fun w =>
    (Ok 1%positive,
     World (<[1%positive := Circuit (Z.to_nat n) []]> (heap w)) (ext w)).

Definition create_noise_model (rate : Q) : M (Circuit := circuit) (Ext := unit) Q :=
  ret rate.

Definition depolarize (n : nat) (rate p : Q) : Q :=
  ((1 - rate) * p + rate / inject_Z (2 ^ Z.of_nat n))%Q.

Definition generate_emp_distribution (qc : loc) (shots : Z) (noise : Q)
    (depth : option Z) : M (Ext := unit) dict :=
  fun w =>
    match heap w !! qc with
    | Some c =>
        (probabilities ← statevector_probabilities (remove_final_measurements c);
         dict_comprehension (basis_states_loop (n_qubits c))
           (depolarize (n_qubits c) noise <$> probabilities)
           (seq 0 (length probabilities)) [],
         w)
    | None => (Raise InvalidReference, w)
    end.

Definition xeb_noisy : Z -> Q -> Z -> option Z -> M Q :=
  xeb_truedist_empdist_noisy n_qubits remove_final_measurements measure_all
    statevector_probabilities random_circuit create_noise_model
    generate_emp_distribution.

Definition xeb_ideal : Z -> Q -> Z -> option Z -> M Q :=
  xeb_truedist_empdist_ideal n_qubits remove_final_measurements measure_all
    statevector_probabilities random_circuit create_noise_model
    generate_emp_distribution.

Definition empty_world : world circuit unit := World ∅ tt.

(** Two qubits, an X gate on qubit 0, then both qubits measured. *)
Definition flipped_and_measured : circuit :=
  Circuit 2 [X 0; Measure 0; Measure 1].


End XCircuit.


(** ** The metrics in binary64 arithmetic

    The same two functions with the numbers Python computes with: a value
    is an [int] or a binary64 [float], a mixed operation converts the int
    operand and raises OverflowError when it is too large, and the
    additions of [sum] round one after the other in the order of
    iteration (as they do for numpy.float64 items, which the true
    distribution holds and [np.abs] returns, and for Python floats before
    CPython 3.12).  The order in which a set is iterated is a parameter
    [set_iter]: it maps the keys in insertion order to the order in which
    the set built from them is visited. *)

Module Binary64.

Inductive pynum : Type :=
  | PyInt (z : Z)
  | PyFloat (x : float).

(** Conversion of an int operand: round to nearest, ties to even; an int
    beyond the range of binary64 raises. *)
Definition float_of_int (z : Z) : result float :=
  match binary_normalize prec emax z 0 false with
  | S754_infinity _ => Raise OverflowError
  | x => Ok (SF2Prim x)
  end.

Definition as_float (a : pynum) : result float :=
  match a with
  | PyInt z => float_of_int z
  | PyFloat x => Ok x
  end.

Definition py_add (a b : pynum) : result pynum :=
  match a, b with
  | PyInt x, PyInt y => Ok (PyInt (x + y))
  | _, _ => x ← as_float a; y ← as_float b; Ok (PyFloat (x + y))
  end.

Definition py_sub (a b : pynum) : result pynum :=
  match a, b with
  | PyInt x, PyInt y => Ok (PyInt (x - y))
  | _, _ => x ← as_float a; y ← as_float b; Ok (PyFloat (x - y))
  end.

Definition py_mul (a b : pynum) : result pynum :=
  match a, b with
  | PyInt x, PyInt y => Ok (PyInt (x * y))
  | _, _ => x ← as_float a; y ← as_float b; Ok (PyFloat (x * y))
  end.

(** [2 ** n]: an int for [n >= 0], the float [2.0 ** n] otherwise. *)
Definition py_pow2 (n : Z) : pynum :=
  if (0 <=? n)%Z then PyInt (2 ^ n) else PyFloat (Z.ldexp 1 n).

Definition dict : Type := list (string * float).

Definition dict_keys (d : dict) : list string := d.*1.
Definition dict_values (d : dict) : list float := d.*2.

Fixpoint dict_lookup (d : dict) (key : string) : option float :=
  match d with
  | [] => None
  | (k, v) :: d' => if decide (k = key) then Some v else dict_lookup d' key
  end.

Definition dict_getitem (d : dict) (key : string) : result float :=
  match dict_lookup d key with
  | Some v => Ok v
  | None => Raise (KeyError key)
  end.

Definition dict_get (d : dict) (key : string) (default : pynum) : pynum :=
  match dict_lookup d key with
  | Some v => PyFloat v
  | None => default
  end.

Definition key_set (d : dict) : gset string := list_to_set (dict_keys d).

Fixpoint py_sum_from {A : Type} (acc : pynum) (item : A -> result pynum)
    (l : list A) : result pynum :=
  match l with
  | [] => Ok acc
  | x :: l' =>
      v ← item x;
      acc' ← py_add acc v;
      py_sum_from acc' item l'
  end.

Definition py_sum {A : Type} (item : A -> result pynum) (l : list A) : result pynum :=
  py_sum_from (PyInt 0) item l.

Definition total_variation_distance (set_iter : list string -> list string)
    (distribution1 distribution2 : dict) : result pynum :=
  let keys1 := key_set distribution1 in
  let keys2 := key_set distribution2 in
  if decide (keys1 ≠ keys2) then Raise (ValueError same_basis_states_msg)
  else
    s ← py_sum (fun key =>
                  p1 ← dict_getitem distribution1 key;
                  p2 ← dict_getitem distribution2 key;
                  Ok (PyFloat (abs (p1 - p2))))
               (set_iter (dict_keys distribution1));
    py_mul (PyFloat 0x1p-1) s.

Definition compute_xeb (empirical_distribution true_distribution : dict)
    (num_qubits : Z) : result pynum :=
  if decide (key_set empirical_distribution ≠ key_set true_distribution)
  then Raise (ValueError same_basis_states_msg)
  else
    xeb_sum ← py_sum (fun state =>
                        p ← dict_getitem true_distribution state;
                        py_mul (PyFloat p)
                               (dict_get empirical_distribution state (PyInt 0)))
                     (dict_keys true_distribution);
    scaled ← py_mul (py_pow2 num_qubits) xeb_sum;
    py_sub scaled (PyInt 1).

(** The iteration of a set visits every element once. *)
Definition set_iteration (set_iter : list string -> list string) : Prop :=
  forall keys, set_iter keys ≡ₚ remove_dups keys.

(** Quantities the statements name. *)
Definition prob (d : dict) (key : string) : float :=
  match dict_lookup d key with
  | Some v => v
  | None => 0
  end.

(** The binary64 sum of [f] over [l], added from left to right. *)
Definition fsum {A : Type} (f : A -> float) (l : list A) : float :=
  fold_left (fun acc x => acc + f x)%float l 0%float.

Definition tvd_value (set_iter : list string -> list string) (d1 d2 : dict) : float :=
  (0x1p-1 * fsum (fun key => abs (prob d1 key - prob d2 key))
                 (set_iter (dict_keys d1)))%float.


(** The number a float stands for, and the distribution a dictionary of
    floats stands for. *)
Definition is_finite (x : float) : bool :=
  match Prim2SF x with
  | S754_zero _ | S754_finite _ _ _ => true
  | _ => false
  end.

Definition to_Q (x : float) : Q :=
  match Prim2SF x with
  | S754_finite s m e =>
      ((if s then -1 else 1) * inject_Z (Zpos m) * Qpower 2 e)%Q
  | _ => 0%Q
  end.

(** Examples. *)
Definition one_qubit_zero : dict := [("0", 1); ("1", 0)]%float.
Definition two_qubit_uniform : dict :=
  [("00", 0x1p-2); ("01", 0x1p-2); ("10", 0x1p-2); ("11", 0x1p-2)]%float.
Definition two_qubit_on_00 : dict := [("00", 1); ("01", 0); ("10", 0); ("11", 0)]%float.

(** Two distributions on disjoint halves of the three-qubit basis. *)
Definition disjoint_p : dict :=
  [("000", 0x1.c8adef282c5ecp-2); ("001", 0); ("010", 0); ("011", 0);
   ("100", 0x1.5837c7e59e5fep-3); ("101", 0x1.8b362ce504715p-2);
   ("110", 0); ("111", 0)]%float.
Definition disjoint_q : dict :=
  [("000", 0); ("001", 0x1.d7b5df01f3af2p-2); ("010", 0x1.39efcc50ccab8p-2);
   ("011", 0x1.dcb4a95a7f4acp-3); ("100", 0); ("101", 0);
   ("110", 0); ("111", 0)]%float.

(** Two distributions over the two-qubit basis whose keys were inserted
    in opposite orders. *)
Definition forward_a : dict :=
  [("00", 0x1.51eb851eb851fp-2); ("01", 0x1.6666666666666p-2);
   ("10", 0x1.999999999999ap-4); ("11", 0x1.c28f5c28f5c29p-3)]%float.
Definition backward_b : dict :=
  [("11", 0x1.0a3d70a3d70a5p-3); ("10", 0x1.3d70a3d70a3d7p-2);
   ("01", 0x1.6666666666666p-2); ("00", 0x1.ae147ae147ae1p-3)]%float.

End Binary64.

(** The exact distribution a dictionary of floats stands for, each float
    taken as the rational number it represents. *)
Definition exact (d : Binary64.dict) : dict :=
  (fun kv => (kv.1, Binary64.to_Q kv.2)) <$> d.

(** A valid probability distribution in binary64: finite values that are
    not negative and whose exact sum is 1. *)
Definition valid_distribution (d : Binary64.dict) : Prop :=
  Forall (fun v => Binary64.is_finite v = true) (Binary64.dict_values d)
  /\ is_distribution (exact d).

(** What [sum] returns on float items: the int 0 when there is none. *)
Definition sum_result {A : Type} (f : A -> float) (l : list A) : Binary64.pynum :=
  match l with
  | [] => Binary64.PyInt 0
  | _ => Binary64.PyFloat (Binary64.fsum f l)
  end.

(** The sign of a binary64 value replaced by [s]. *)
Definition SFwith_sign (s : bool) (x : spec_float) : spec_float :=
  match x with
  | S754_zero _ => S754_zero s
  | S754_infinity _ => S754_infinity s
  | S754_nan => S754_nan
  | S754_finite _ m e => S754_finite s m e
  end.

(** Not below zero: NaN, a zero of either sign, or a positive value. *)
Definition SFnn (x : spec_float) : Prop :=
  match x with
  | S754_zero _ => True
  | S754_infinity s => s = false
  | S754_nan => True
  | S754_finite s _ _ => s = false
  end.

(** ** The circuit object

    Qiskit's [QuantumCircuit] and its [remove_final_measurements] are not
    part of this repository.  Where a statement depends on what stripping
    does, the circuit is the following one. *)

Module Qiskit.

(** Modelled from the spec: the instructions of a [QuantumCircuit], as far
    as the builder is concerned: gates, which act on qubits, and
    measurements of one qubit into one classical bit. *)
Inductive instruction : Type :=
  | Gate (name : string) (qubits : list nat)
  | Measure (qubit clbit : nat).

(** Modelled from the spec: a [QuantumCircuit], "has a qubit count [...];
    carries optional measurement operations". *)
Record QuantumCircuit : Type := Circuit {
  num_qubits : nat;
  data : list instruction
}.

Definition gate_on (q : nat) (op : instruction) : bool :=
  match op with
  | Gate _ qubits => bool_decide (q ∈ qubits)
  | Measure _ _ => false
  end.

Definition is_gate (op : instruction) : bool :=
  match op with
  | Gate _ _ => true
  | Measure _ _ => false
  end.

(** Modelled from the spec: the stripping of "any final measurement
    operations".  A measurement is final when no gate acts on its qubit
    after it; the gates and the other measurements stay in their order. *)
Fixpoint strip_final (ops : list instruction) : list instruction :=
  match ops with
  | [] => []
  | Gate name qubits :: rest => Gate name qubits :: strip_final rest
  | Measure q c :: rest =>
      if existsb (gate_on q) rest then Measure q c :: strip_final rest
      else strip_final rest
  end.

(** Modelled from the spec: [QuantumCircuit.remove_final_measurements],
    which "strips any final measurement operations" of the circuit in
    place; the qubits stay. *)
Definition remove_final_measurements (qc : QuantumCircuit) : QuantumCircuit :=
  Circuit (num_qubits qc) (strip_final (data qc)).

(** A Bell pair measured on both qubits. *)
Definition bell_measured : QuantumCircuit :=
  Circuit 2 [Gate "h" [0]; Gate "cx" [0; 1]; Measure 0 0; Measure 1 1].

(** A stand-in for the statevector simulation of a two-qubit circuit. *)
Definition bell_probabilities (qc : QuantumCircuit) : result (list Q) :=
  if forallb is_gate (data qc) then Ok [1 # 2; 0; 0; 1 # 2]%Q
  else Raise QiskitError.

End Qiskit.

(** ** Facts about sums *)

Section Sums.
  Context {A : Type}.
  Implicit Types (f g : A -> Q) (l : list A).
  Local Open Scope Q_scope.
  Local Hint Resolve list_elem_of_here list_elem_of_further : core.

Lemma Qsum_ext_in f g l :
  (forall x, x ∈ l -> f x == g x) -> Qsum f l == Qsum g l.
Proof.
  induction l as [|x l IH]; intros Hfg; simpl; [reflexivity|].
  rewrite (Hfg x), IH; [reflexivity| |]; intros; try apply Hfg; auto.
Qed.

Lemma Qsum_perm f l l' : l ≡ₚ l' -> Qsum f l == Qsum f l'.
Proof.
  induction 1 as [|x l l' _ IH|x y l|l l' l'' _ IH1 _ IH2]; simpl.
  - reflexivity.
  - rewrite IH. reflexivity.
  - ring.
  - rewrite IH1. exact IH2.
Qed.

Lemma Qsum_plus f g l : Qsum (fun x => f x + g x) l == Qsum f l + Qsum g l.
Proof. induction l as [|x l IH]; simpl; [|rewrite IH]; ring. Qed.

Lemma Qsum_le f g l :
  (forall x, x ∈ l -> f x <= g x) -> Qsum f l <= Qsum g l.
Proof.
  induction l as [|x l IH]; intros Hfg; simpl; [lra|].
  assert (f x <= g x) by (apply Hfg; auto).
  assert (Qsum f l <= Qsum g l) by (apply IH; intros; apply Hfg; auto).
  lra.
Qed.

Lemma Qsum_nonneg f l : (forall x, x ∈ l -> 0 <= f x) -> 0 <= Qsum f l.
Proof.
  induction l as [|x l IH]; intros Hf; simpl; [lra|].
  assert (0 <= f x) by (apply Hf; auto).
  assert (0 <= Qsum f l) by (apply IH; intros; apply Hf; auto).
  lra.
Qed.

Lemma Qsum_zero_iff f l :
  (forall x, x ∈ l -> 0 <= f x) ->
  Qsum f l == 0 <-> (forall x, x ∈ l -> f x == 0).
Proof.
  induction l as [|x l IH]; intros Hf; simpl.
  - split; [intros _ x Hx%elem_of_nil; done | reflexivity].
  - assert (0 <= f x) by (apply Hf; auto).
    assert (Hl : forall y, y ∈ l -> 0 <= f y) by (intros; apply Hf; auto).
    pose proof (Qsum_nonneg f l Hl). specialize (IH Hl).
    split.
    + intros Hs y [->|Hy]%elem_of_cons; [lra|].
      apply IH; [lra|exact Hy].
    + intros Hz.
      assert (f x == 0) by (apply Hz; auto).
      assert (Qsum f l == 0) by (apply IH; intros; apply Hz; auto).
      lra.
Qed.

(** [sum] over items that all evaluate returns the mathematical sum. *)
Lemma py_sum_from_total (item : A -> result Q) f acc l :
  (forall x, x ∈ l -> exists v, item x = Ok v /\ v == f x) ->
  exists s, py_sum_from acc item l = Ok s /\ s == acc + Qsum f l.
Proof.
  revert acc. induction l as [|x l IH]; intros acc Hitem; simpl.
  - exists acc. split; [reflexivity|ring].
  - destruct (Hitem x) as (v & -> & Hv); [auto|].
    destruct (IH (acc + v)) as (s & -> & Hs); [intros; apply Hitem; auto|].
    exists s. split; [reflexivity|]. rewrite Hs, Hv. ring.
Qed.

Lemma py_sum_total (item : A -> result Q) f l :
  (forall x, x ∈ l -> exists v, item x = Ok v /\ v == f x) ->
  exists s, py_sum item l = Ok s /\ s == Qsum f l.
Proof.
  intros H. destruct (py_sum_from_total item f 0 l H) as (s & Hs & Heq).
  exists s. split; [exact Hs|]. rewrite Heq. ring.
Qed.

End Sums.

(** ** Facts about dictionaries *)

Lemma dict_lookup_is_Some d key : is_Some (dict_lookup d key) <-> key ∈ dict_keys d.
Proof.
  unfold dict_keys. induction d as [|[k v] d IH]; simpl.
  - split; [intros [? ?]; done | intros ?%elem_of_nil; done].
  - case_decide as Hk.
    + subst. split; [intros _; apply list_elem_of_here | intros _; eauto].
    + rewrite IH, elem_of_cons. split; [by right | intros [->|?]; done].
Qed.

Lemma elem_of_key_set d key : key ∈ key_set d <-> key ∈ dict_keys d.
Proof. unfold key_set. by rewrite elem_of_list_to_set. Qed.

Lemma dict_getitem_prob d key :
  key ∈ key_set d -> dict_getitem d key = Ok (prob d key).
Proof.
  intros [v Hv]%elem_of_key_set%dict_lookup_is_Some.
  unfold dict_getitem, prob, dict_get. by rewrite Hv.
Qed.

Lemma dict_getitem_raises d key :
  key ∉ key_set d -> dict_getitem d key = Raise (KeyError key).
Proof.
  intros Hk. unfold dict_getitem.
  destruct (dict_lookup d key) as [v|] eqn:Hv; [|done].
  exfalso. apply Hk, elem_of_key_set, dict_lookup_is_Some. eauto.
Qed.

Lemma elements_key_set d : dict_wf d -> elements (key_set d) ≡ₚ dict_keys d.
Proof. intros Hwf. unfold key_set. by apply elements_list_to_set. Qed.

Lemma Qsum_prob_values d :
  dict_wf d -> (Qsum (prob d) (dict_keys d) == Qsum id (dict_values d))%Q.
Proof.
  unfold dict_wf, dict_keys, dict_values.
  induction d as [|[k v] d IH]; simpl; [reflexivity|].
  intros [Hk Hd]%NoDup_cons.
  rewrite <- (IH Hd).
  assert (Hhd : prob ((k, v) :: d) k = v).
  { unfold prob, dict_get. simpl. by rewrite decide_True. }
  rewrite Hhd. apply Qplus_inj_l.
  apply Qsum_ext_in. intros k' Hk'.
  unfold prob, dict_get. simpl.
  rewrite decide_False; [reflexivity|]. intros ->. done.
Qed.

(** ** The metrics *)

Section Metrics.
  Local Open Scope Q_scope.
  Implicit Types (d : dict) (key : string).

Lemma tvd_item d1 d2 key :
  key_set d1 = key_set d2 -> key ∈ elements (key_set d1) ->
  (p1 ← dict_getitem d1 key; p2 ← dict_getitem d2 key; Ok (Qabs (p1 - p2)))
  = Ok (Qabs (prob d1 key - prob d2 key)).
Proof.
  intros Heq Hk%elem_of_elements.
  rewrite (dict_getitem_prob d1 key Hk).
  rewrite (dict_getitem_prob d2 key) by (by rewrite <- Heq).
  reflexivity.
Qed.

Lemma tvd_returns d1 d2 :
  key_set d1 = key_set d2 ->
  exists v, total_variation_distance d1 d2 = Ok v
            /\ v == (1 # 2) * abs_difference_sum d1 d2.
Proof.
  intros Heq. unfold total_variation_distance.
  rewrite decide_False by (intros Hne; by apply Hne).
  edestruct (py_sum_total (A := string)) as (s & Hs & Hsum); last first.
  { rewrite Hs. exists ((1 # 2) * s). split; [reflexivity|].
    rewrite Hsum. reflexivity. }
  intros key Hk. eexists. split; [by apply tvd_item | reflexivity].
Qed.

Lemma tvd_raises d1 d2 :
  key_set d1 <> key_set d2 ->
  total_variation_distance d1 d2 = Raise (ValueError same_basis_states_msg).
Proof. intros Hne. unfold total_variation_distance. by rewrite decide_True. Qed.

Lemma xeb_returns e t n :
  key_set e = key_set t ->
  exists v, compute_xeb e t n = Ok v /\ v == Qpower 2 n * overlap_sum e t - 1.
Proof.
  intros Heq. unfold compute_xeb.
  rewrite decide_False by (intros Hne; by apply Hne).
  edestruct (py_sum_total (A := string)) as (s & Hs & Hsum); last first.
  { rewrite Hs. eexists. split; [reflexivity|]. rewrite Hsum. reflexivity. }
  intros key Hk. eexists. split; [|reflexivity].
  rewrite (dict_getitem_prob t key) by (by apply elem_of_key_set).
  reflexivity.
Qed.

Lemma xeb_raises e t n :
  key_set e <> key_set t ->
  compute_xeb e t n = Raise (ValueError same_basis_states_msg).
Proof. intros Hne. unfold compute_xeb. by rewrite decide_True. Qed.

Lemma abs_difference_sum_nonneg d1 d2 : 0 <= abs_difference_sum d1 d2.
Proof. apply Qsum_nonneg. intros. apply Qabs_nonneg. Qed.

Lemma prob_nonneg d key :
  Forall (fun p => 0 <= p) (dict_values d) -> 0 <= prob d key.
Proof.
  unfold prob, dict_get, dict_values.
  induction d as [|[k v] d IH]; simpl; [lra|].
  intros [Hv Hd]%Forall_cons. case_decide; [exact Hv | by apply IH].
Qed.

Lemma Qsum_prob_key_set d d' :
  is_distribution d -> key_set d' = key_set d ->
  Qsum (prob d) (elements (key_set d')) == 1.
Proof.
  intros (Hwf & _ & Hsum) ->.
  rewrite (Qsum_perm _ _ _ (elements_key_set d Hwf)).
  rewrite Qsum_prob_values by done. exact Hsum.
Qed.

Lemma abs_difference_sum_le_2 d1 d2 :
  is_distribution d1 -> is_distribution d2 -> key_set d1 = key_set d2 ->
  abs_difference_sum d1 d2 <= 2.
Proof.
  intros H1 H2 Heq. unfold abs_difference_sum.
  assert (Hle : Qsum (fun key => Qabs (prob d1 key - prob d2 key)) (elements (key_set d1))
                <= Qsum (fun key => prob d1 key + prob d2 key) (elements (key_set d1))).
  { apply Qsum_le. intros key _.
    pose proof (prob_nonneg d1 key (proj1 (proj2 H1))).
    pose proof (prob_nonneg d2 key (proj1 (proj2 H2))).
    apply Qabs_case; intros; lra. }
  rewrite Qsum_plus in Hle.
  rewrite (Qsum_prob_key_set d1 d1 H1 eq_refl) in Hle.
  rewrite (Qsum_prob_key_set d2 d1 H2 Heq) in Hle.
  lra.
Qed.
End Metrics.

(** ** Theorems on the metrics *)

Section MetricClaims.
  Local Open Scope Q_scope.

(** C5: for distributions with the same key set the total variation
    distance returned is zero exactly when the two distributions give
    every key the same probability. *)
Theorem total_variation_distance_zero_iff (d1 d2 : dict) :
  key_set d1 = key_set d2 ->
  returns (total_variation_distance d1 d2) 0
  <-> (forall key, key ∈ key_set d1 -> prob d1 key == prob d2 key).
Proof.
  intros Heq.
  destruct (tvd_returns d1 d2 Heq) as (v & Hv & Hval).
  rewrite Hv. simpl. rewrite Hval. unfold abs_difference_sum.
  pose proof (Qsum_zero_iff (fun key => Qabs (prob d1 key - prob d2 key))
                (elements (key_set d1))
                (fun key _ => Qabs_nonneg _)) as Hz.
  split.
  - intros H0 key Hk.
    assert (Hs : Qsum (fun key => Qabs (prob d1 key - prob d2 key))
                   (elements (key_set d1)) == 0) by lra.
    apply Hz with (x := key) in Hs; [|by apply elem_of_elements].
    revert Hs. apply Qabs_case; intros; lra.
  - intros Hsame.
    assert (Hs : Qsum (fun key => Qabs (prob d1 key - prob d2 key))
                   (elements (key_set d1)) == 0).
    { apply Hz. intros key Hk%elem_of_elements.
      specialize (Hsame key Hk). apply Qabs_case; intros; lra. }
    rewrite Hs. reflexivity.
Qed.

Lemma total_variation_distance_zero_iff_witness :
  returns (total_variation_distance one_qubit_zero one_qubit_zero) 0
  <-> (forall key, key ∈ key_set one_qubit_zero ->
                   prob one_qubit_zero key == prob one_qubit_zero key).
Proof.
  apply (total_variation_distance_zero_iff one_qubit_zero one_qubit_zero).
  vm_compute; reflexivity.
Defined.

(** C10: the empty key set is admitted.  On two empty distributions
    [total_variation_distance] returns 0 and [compute_xeb] returns
    2^n * 0 - 1 = -1 for every qubit count n, neither raising. *)
Theorem metrics_on_empty_distributions (num_qubits : Z) :
  key_set [] = key_set []
  /\ returns (total_variation_distance [] []) 0
  /\ returns (compute_xeb [] [] num_qubits) (Qpower 2 num_qubits * 0 - 1)
  /\ returns (compute_xeb [] [] num_qubits) (-1).
Proof.
  split; [reflexivity|]. split; [vm_compute; reflexivity|].
  assert (Hx : compute_xeb [] [] num_qubits = Ok (Qpower 2 num_qubits * 0 - 1)).
  { unfold compute_xeb. rewrite decide_False by (intros Hne; by apply Hne).
    reflexivity. }
  rewrite Hx. simpl. split; [reflexivity | ring].
Qed.

End MetricClaims.

(** ** check_distribution_normalization *)

Section Normalization.
  Local Open Scope Q_scope.

Lemma py_sum_values (d : dict) :
  exists total, py_sum Ok (dict_values d) = Ok total
                /\ total == Qsum id (dict_values d).
Proof.
  apply py_sum_total. intros p _. exists p. split; reflexivity.
Qed.

Lemma np_isclose_1 (a : Q) :
  np_isclose a 1 = true <-> Qabs (a - 1) <= 1001 # 100000000.
Proof.
  unfold np_isclose. rewrite Qle_bool_iff.
  assert (Htol : np_atol + np_rtol * Qabs 1 == 1001 # 100000000)
    by (vm_compute; reflexivity).
  rewrite Htol. reflexivity.
Qed.

(** C6, as the code has it: [check_distribution_normalization] never
    raises; it returns true and prints nothing exactly when the sum of the
    values differs from 1.0 by at most atol + rtol * |1.0| with NumPy's
    defaults atol = 1e-8 and rtol = 1e-5, that is by at most 1.001e-5;
    otherwise it prints the warning with the sum and returns false. *)
Theorem check_distribution_normalization_isclose (distribution : dict) :
  exists total,
    total == Qsum id (dict_values distribution)
    /\ (Qabs (total - 1) <= 1001 # 100000000 ->
        check_distribution_normalization distribution = Ok (true, []))
    /\ (~ Qabs (total - 1) <= 1001 # 100000000 ->
        check_distribution_normalization distribution
        = Ok (false, [Warning_total_probability total]))
    /\ (check_distribution_normalization distribution = Ok (true, [])
        \/ check_distribution_normalization distribution
           = Ok (false, [Warning_total_probability total])).
Proof.
  destruct (py_sum_values distribution) as (total & Hsum & Htotal).
  exists total. split; [exact Htotal|].
  unfold check_distribution_normalization. rewrite Hsum. simpl.
  destruct (np_isclose total 1) eqn:Hclose.
  - apply np_isclose_1 in Hclose. repeat split; try done. by left.
  - assert (Hfar : ~ Qabs (total - 1) <= 1001 # 100000000).
    { intros Hle. apply np_isclose_1 in Hle. congruence. }
    repeat split; try done. by right.
Qed.

(** C6, as stated, fails: the one-entry distribution whose value is
    1.000001 is accepted although its sum is 1e-6 away from 1.0, more
    than the absolute tolerance 1e-8 of the claim. *)
Lemma check_distribution_normalization_not_1e8 :
  check_distribution_normalization slightly_off = Ok (true, [])
  /\ Qsum id (dict_values slightly_off) == 1000001 # 1000000
  /\ ~ Qabs (Qsum id (dict_values slightly_off) - 1) <= 1 # 100000000.
Proof.
  split; [vm_compute; reflexivity|]. split; [vm_compute; reflexivity|].
  vm_compute. intros H. apply H. reflexivity.
Qed.

End Normalization.

(** ** Basis-state labels *)

Section Labels.
  Implicit Types (s : string) (p : positive) (i n : nat).

Lemma length_append s1 s2 :
  String.length (s1 +:+ s2) = String.length s1 + String.length s2.
Proof. induction s1 as [|c s1 IH]; simpl; [done | by rewrite IH]. Qed.

Lemma length_zeros n : String.length (zeros n) = n.
Proof. induction n as [|n IH]; simpl; [done | by rewrite IH]. Qed.

Lemma length_pos_bin_pos p : 0 < String.length (pos_bin p).
Proof. destruct p; simpl; rewrite ?length_append; simpl; lia. Qed.

Lemma length_pos_bin p n :
  Pos.to_nat p < 2 ^ n -> String.length (pos_bin p) <= n.
Proof.
  revert n. induction p as [p IH|p IH|]; intros [|n] Hlt; simpl in *;
    rewrite ?length_append; simpl; try lia.
  - rewrite Pos2Nat.inj_xI in Hlt. specialize (IH n). lia.
  - rewrite Pos2Nat.inj_xO in Hlt. specialize (IH n). lia.
Qed.

Lemma length_bin i n :
  i < 2 ^ n -> String.length (bin (N.of_nat i)) <= Nat.max n 1.
Proof.
  intros Hlt. destruct (N.of_nat i) as [|p] eqn:Hi; simpl; [lia|].
  assert (Pos.to_nat p = i) as <- by lia.
  pose proof (length_pos_bin p n Hlt). lia.
Qed.

(** A label has [num_qubits] characters, except that the label of a
    circuit without qubits is the one-character string "0". *)
Lemma length_format_0b i n :
  i < 2 ^ n -> String.length (format_0b i n) = Nat.max n 1.
Proof.
  intros Hlt. unfold format_0b. rewrite length_append, length_zeros.
  pose proof (length_bin i n Hlt).
  assert (0 < String.length (bin (N.of_nat i))).
  { destruct (N.of_nat i); simpl; [lia | apply length_pos_bin_pos]. }
  lia.
Qed.

Lemma parse_bin_from_append acc s1 s2 :
  parse_bin_from acc (s1 +:+ s2)
  = match parse_bin_from acc s1 with
    | Some acc' => parse_bin_from acc' s2
    | None => None
    end.
Proof.
  revert acc. induction s1 as [|c s1 IH]; intros acc; simpl; [done|].
  destruct (bit_value c); [apply IH | done].
Qed.

Lemma parse_bin_from_zeros n : parse_bin_from 0%N (zeros n) = Some 0%N.
Proof. induction n as [|n IH]; simpl; [done | exact IH]. Qed.

Lemma parse_bin_pos_bin p : parse_bin_from 0%N (pos_bin p) = Some (Npos p).
Proof.
  induction p as [p IH|p IH|]; simpl; [| |done];
    rewrite parse_bin_from_append, IH; simpl; f_equal.
Qed.

(** Reading a label back as a binary numeral gives the index it labels. *)
Lemma parse_bin_format_0b i n : parse_bin (format_0b i n) = Some (N.of_nat i).
Proof.
  unfold parse_bin, format_0b.
  rewrite parse_bin_from_append, parse_bin_from_zeros.
  destruct (N.of_nat i) as [|p]; simpl; [done | apply parse_bin_pos_bin].
Qed.

Lemma format_0b_inj n : Inj (=) (=) (fun i => format_0b i n).
Proof.
  intros i j Hij.
  assert (Some (N.of_nat i) = Some (N.of_nat j)) as Heq
    by (rewrite <- !(parse_bin_format_0b _ n); by f_equal).
  injection Heq. lia.
Qed.

Lemma basis_states_loop_fmap n :
  basis_states_loop n = (fun i => format_0b i n) <$> seq 0 (2 ^ n).
Proof.
  unfold basis_states_loop.
  enough (forall l acc,
    foldl (fun basis_states i => basis_states ++ [format_0b i n]) acc l
    = acc ++ ((fun i => format_0b i n) <$> l)) as H by apply H.
  induction l as [|i l IH]; intros acc; simpl.
  - by rewrite app_nil_r.
  - rewrite IH, <- app_assoc. done.
Qed.

Lemma basis_states_loop_NoDup n : NoDup (basis_states_loop n).
Proof.
  rewrite basis_states_loop_fmap.
  apply (NoDup_fmap_2 (fun i => format_0b i n) (Inj0 := format_0b_inj n)), NoDup_seq.
Qed.

Lemma basis_states_loop_length n : length (basis_states_loop n) = 2 ^ n.
Proof. by rewrite basis_states_loop_fmap, length_fmap, length_seq. Qed.
End Labels.

(** ** The dictionary comprehension *)

Section Comprehension.
  Implicit Types (ks : list string) (vs : list Q) (acc : dict).

Lemma dict_setitem_fresh acc key v :
  key ∉ dict_keys acc -> dict_setitem acc key v = acc ++ [(key, v)].
Proof.
  unfold dict_keys. induction acc as [|[k v'] acc IH]; simpl; [done|].
  intros Hk. apply not_elem_of_cons in Hk as [Hne Hk].
  rewrite decide_False by done. by rewrite IH.
Qed.


End Comprehension.

(** ** Theorems on the builder and the drivers *)

Section BuilderClaims.
  Context {Circuit NoiseModel Ext : Type}.
  Variable num_qubits : Circuit -> nat.
  Variable remove_final_measurements : Circuit -> Circuit.
  Variable measure_all : Circuit -> Circuit.
  Variable statevector_probabilities : Circuit -> result (list Q).
  Variable random_circuit : Z -> option Z -> M (Circuit := Circuit) (Ext := Ext) loc.
  Variable create_noise_model : Q -> M (Circuit := Circuit) (Ext := Ext) NoiseModel.
  Variable generate_emp_distribution :
    loc -> Z -> NoiseModel -> option Z -> M (Circuit := Circuit) (Ext := Ext) dict.

Abbreviation builder :=
  (calculate_true_distribution num_qubits remove_final_measurements
     statevector_probabilities).

  Implicit Types (w : world Circuit Ext) (c : Circuit) (qc : loc).

(** What one call does: the object at [qc] is stripped in place, and the
    outcome is computed from the stripped circuit alone. *)
Lemma calculate_true_distribution_unfold qc w c :
  heap w !! qc = Some c ->
  builder qc w
  = (probabilities ← statevector_probabilities (remove_final_measurements c);
     dict_comprehension
       (basis_states_loop (num_qubits (remove_final_measurements c)))
       probabilities (seq 0 (length probabilities)) [],
     World (<[qc := remove_final_measurements c]> (heap w)) (ext w)).
Proof.
  intros Hc. unfold calculate_true_distribution, bind, in_place, read, lift.
  rewrite Hc. simpl. rewrite lookup_insert_eq.
  destruct (statevector_probabilities (remove_final_measurements c)); done.
Qed.


(** C9: [xeb_truedist_empdist_ideal] does not depend on its [noise_rate]
    argument: with the other arguments, the world and the collaborators
    fixed, any two rates give the same outcome and the same final world.
    The noise model is built with rate 0: replacing [create_noise_model]
    by the function that builds the rate-0 model whatever it is asked for
    changes nothing. *)
Theorem xeb_truedist_empdist_ideal_ignores_noise_rate
    (n : Z) (rate1 rate2 : Q) (shots : Z) (depth : option Z) w :
  xeb_truedist_empdist_ideal num_qubits remove_final_measurements measure_all
    statevector_probabilities random_circuit create_noise_model
    generate_emp_distribution n rate1 shots depth w
  = xeb_truedist_empdist_ideal num_qubits remove_final_measurements measure_all
      statevector_probabilities random_circuit create_noise_model
      generate_emp_distribution n rate2 shots depth w
  /\ xeb_truedist_empdist_ideal num_qubits remove_final_measurements measure_all
       statevector_probabilities random_circuit create_noise_model
       generate_emp_distribution n rate1 shots depth w
     = xeb_truedist_empdist_ideal num_qubits remove_final_measurements measure_all
         statevector_probabilities random_circuit (fun _ => create_noise_model 0%Q)
         generate_emp_distribution n rate2 shots depth w.
Proof. split; reflexivity. Qed.

End BuilderClaims.

(** ** Stripping the final measurements *)

Section Stripping.
  Import Qiskit.
  Context {Ext : Type}.
  Variable statevector_probabilities : QuantumCircuit -> result (list Q).

  Abbreviation build_true :=
    (calculate_true_distribution (Ext := Ext) num_qubits remove_final_measurements
       statevector_probabilities).

Lemma gate_on_strip_final q ops :
  existsb (gate_on q) (strip_final ops) = existsb (gate_on q) ops.
Proof.
  induction ops as [|[name qubits|q' c'] ops IH]; simpl; [done| |].
  - by rewrite IH.
  - destruct (existsb (gate_on q') ops); simpl; exact IH.
Qed.

(** Stripping a stripped circuit changes nothing. *)
Lemma strip_final_twice ops : strip_final (strip_final ops) = strip_final ops.
Proof.
  induction ops as [|[name qubits|q c] ops IH]; simpl; [done| |].
  - by rewrite IH.
  - destruct (existsb (gate_on q) ops) eqn:Hq; simpl; [|exact IH].
    by rewrite gate_on_strip_final, Hq, IH.
Qed.

(** After stripping no measurement is final. *)
Lemma strip_final_none_left ops : forall before q c after,
  strip_final ops = before ++ Measure q c :: after ->
  existsb (gate_on q) after = true.
Proof.
  induction ops as [|[name qubits|q' c'] ops IH]; intros before q c after; simpl.
  - by destruct before.
  - destruct before as [|op before]; simpl; [done|].
    intros [= _ Heq]. by apply (IH before q c after).
  - destruct (existsb (gate_on q') ops) eqn:Hq'; [|apply IH].
    destruct before as [|op before]; simpl.
    + intros [= <- <- <-]. by rewrite gate_on_strip_final.
    + intros [= _ Heq]. by apply (IH before q c after).
Qed.

(** The gates stay, in their order. *)
Lemma strip_final_gates ops :
  List.filter is_gate (strip_final ops) = List.filter is_gate ops.
Proof.
  induction ops as [|[name qubits|q c] ops IH]; simpl; [done| |].
  - by rewrite IH.
  - destruct (existsb (gate_on q) ops); simpl; exact IH.
Qed.

(** When every measurement is final, none is left. *)
Lemma strip_final_all ops :
  (forall before q c after,
     ops = before ++ Measure q c :: after ->
     existsb (gate_on q) after = false) ->
  strip_final ops = List.filter is_gate ops.
Proof.
  induction ops as [|[name qubits|q c] ops IH]; intros Hfinal; simpl; [done| |].
  - f_equal. apply IH. intros before q c after ->.
    by apply (Hfinal (Gate name qubits :: before) q c after).
  - rewrite (Hfinal [] q c ops eq_refl). apply IH.
    intros before q' c' after ->.
    by apply (Hfinal (Measure q c :: before) q' c' after).
Qed.

(** C8: [calculate_true_distribution] replaces the caller's circuit
    object by the circuit stripped of its final measurements and touches
    no other object.  In the stripped circuit no measurement is final,
    the gates are the gates of the input, and when every measurement of
    the input was final no measurement is left at all.  A second call on
    the same object leaves the store as the first call left it and has
    the same outcome. *)
Theorem calculate_true_distribution_twice (qc : loc)
    (w : world QuantumCircuit Ext) (c : QuantumCircuit) :
  heap w !! qc = Some c ->
  heap (build_true qc w).2 !! qc = Some (remove_final_measurements c)
  /\ (forall qc', qc' <> qc -> heap (build_true qc w).2 !! qc' = heap w !! qc')
  /\ (forall before q cl after,
        data (remove_final_measurements c) = before ++ Measure q cl :: after ->
        existsb (gate_on q) after = true)
  /\ List.filter is_gate (data (remove_final_measurements c))
     = List.filter is_gate (data c)
  /\ ((forall before q cl after,
         data c = before ++ Measure q cl :: after ->
         existsb (gate_on q) after = false) ->
      forallb is_gate (data (remove_final_measurements c)) = true)
  /\ remove_final_measurements (remove_final_measurements c)
     = remove_final_measurements c
  /\ (build_true qc (build_true qc w).2).2 = (build_true qc w).2
  /\ (build_true qc (build_true qc w).2).1 = (build_true qc w).1.
Proof.
  intros Hc.
  assert (Hidem : remove_final_measurements (remove_final_measurements c)
                  = remove_final_measurements c).
  { unfold remove_final_measurements. simpl. by rewrite strip_final_twice. }
  rewrite (calculate_true_distribution_unfold _ _ _ qc w c Hc).
  cbn [fst snd heap].
  split; [apply lookup_insert_eq|].
  split; [intros qc' Hne; by apply lookup_insert_ne|].
  split; [intros before q cl after; apply strip_final_none_left|].
  split; [apply strip_final_gates|].
  split.
  { intros Hfinal. simpl. rewrite (strip_final_all _ Hfinal).
    apply forallb_forall. intros op [_ Hop]%filter_In. exact Hop. }
  split; [exact Hidem|].
  rewrite (calculate_true_distribution_unfold _ _ _ qc _
             (remove_final_measurements c)) by apply lookup_insert_eq.
  cbn [fst snd heap ext]. rewrite Hidem, insert_insert_eq. done.
Qed.

End Stripping.

Lemma calculate_true_distribution_twice_witness :
  heap (calculate_true_distribution (Ext := unit) Qiskit.num_qubits
          Qiskit.remove_final_measurements Qiskit.bell_probabilities 1%positive
          (World {[1%positive := Qiskit.bell_measured]} tt)).2 !! 1%positive
  = Some (Qiskit.remove_final_measurements Qiskit.bell_measured)
  /\ Qiskit.data (Qiskit.remove_final_measurements Qiskit.bell_measured)
     = [Qiskit.Gate "h" [0]; Qiskit.Gate "cx" [0; 1]]
  /\ (calculate_true_distribution (Ext := unit) Qiskit.num_qubits
        Qiskit.remove_final_measurements Qiskit.bell_probabilities 1%positive
        (World {[1%positive := Qiskit.bell_measured]} tt)).1
     = Ok [("00"%string, 1 # 2); ("01"%string, 0);
           ("10"%string, 0); ("11"%string, 1 # 2)]%Q.
Proof.
  split; [|split; vm_compute; reflexivity].
  apply (calculate_true_distribution_twice Qiskit.bell_probabilities 1%positive
           (World {[1%positive := Qiskit.bell_measured]} tt) Qiskit.bell_measured).
  vm_compute; reflexivity.
Defined.

(** ** The reference instance meets the assumptions *)

Section ReferenceInstance.
  Import XCircuit.

Lemma strip_final_idem busy rev_data :
  strip_final busy (strip_final busy rev_data) = strip_final busy rev_data.
Proof.
  revert busy. induction rev_data as [|[q|q] rest IH]; intros busy; simpl.
  - done.
  - by rewrite IH.
  - case_decide as Hq; simpl; [rewrite decide_True by done; by rewrite IH | apply IH].
Qed.

Lemma remove_final_measurements_idem c :
  remove_final_measurements (remove_final_measurements c)
  = remove_final_measurements c.
Proof.
  unfold remove_final_measurements. simpl.
  by rewrite reverse_involutive, strip_final_idem.
Qed.
End ReferenceInstance.

(** ** The builder on concrete circuits *)

Section BuilderExamples.
  Import XCircuit.



(** By contrast the noisy driver hands its rate to the noise model: with
    the reference collaborators, rates 0 and 1 score 1 and 0 on one qubit,
    while the ideal driver scores 1 at either rate. *)
Lemma xeb_truedist_empdist_noisy_uses_noise_rate :
  returns (xeb_noisy 1 0 100 None empty_world).1 1
  /\ returns (xeb_noisy 1 1 100 None empty_world).1 0
  /\ returns (xeb_ideal 1 0 100 None empty_world).1 1
  /\ returns (xeb_ideal 1 1 100 None empty_world).1 1.
Proof. repeat split; vm_compute; reflexivity. Qed.

End BuilderExamples.


(** ** Further properties of the metrics *)

Section MetricProperties.
  Local Open Scope Q_scope.
  Implicit Types (d e t : dict) (key : string).

Lemma dict_lookup_Some_wf d key v :
  dict_wf d -> dict_lookup d key = Some v <-> (key, v) ∈ d.
Proof.
  unfold dict_wf, dict_keys. induction d as [|[k v'] d IH]; simpl.
  - intros _. split; [done | intros ?%elem_of_nil; done].
  - intros [Hk Hd]%NoDup_cons. rewrite elem_of_cons. case_decide as Hkey.
    + subst. split; [intros [= ->]; by left|].
      intros [[= ->]|Hin]; [done|].
      exfalso. apply Hk. apply list_elem_of_fmap. by exists (key, v).
    + rewrite (IH Hd). split; [by right|]. intros [[= -> ->]|Hin]; done.
Qed.

(** X2: the total variation distance is never negative, whether or not
    the inputs are normalised: with the same key set the call returns a
    value of at least 0. *)
Theorem total_variation_distance_nonneg (d1 d2 : dict) :
  key_set d1 = key_set d2 ->
  exists v, total_variation_distance d1 d2 = Ok v /\ 0 <= v.
Proof.
  intros Heq. destruct (tvd_returns d1 d2 Heq) as (v & Hv & Hval).
  exists v. split; [exact Hv|].
  pose proof (abs_difference_sum_nonneg d1 d2). lra.
Qed.

Lemma total_variation_distance_nonneg_witness :
  exists v, total_variation_distance slightly_off slightly_off = Ok v /\ 0 <= v.
Proof.
  apply (total_variation_distance_nonneg slightly_off slightly_off).
  vm_compute; reflexivity.
Defined.

End MetricProperties.

(** ** Further properties of the builder *)

Section ComprehensionBounds.
  Implicit Types (ks : list string) (vs : list Q) (acc : dict).

Lemma dict_comprehension_prefix ks vs m : forall j acc,
  NoDup ks -> j + m <= length ks -> j + m <= length vs ->
  acc = zip (take j ks) (take j vs) ->
  dict_comprehension ks vs (seq j m) acc
  = Ok (zip (take (j + m) ks) (take (j + m) vs)).
Proof.
  induction m as [|m IH]; intros j acc Hnd Hks Hvs ->; simpl.
  - by rewrite Nat.add_0_r.
  - destruct (lookup_lt_is_Some_2 ks j) as [key Hkey]; [lia|].
    destruct (lookup_lt_is_Some_2 vs j) as [v Hv]; [lia|].
    unfold list_getitem. rewrite Hkey, Hv. simpl.
    replace (j + S m) with (S j + m) by lia.
    apply IH; [done | lia | lia |].
    rewrite dict_setitem_fresh.
    + rewrite (take_S_r ks j key Hkey), (take_S_r vs j v Hv).
      rewrite zip_with_app; [done|].
      rewrite !length_take. lia.
    + unfold dict_keys. rewrite fst_zip by (rewrite !length_take; lia).
      intros [i Hi]%list_elem_of_lookup_1.
      apply lookup_take_Some in Hi as [Hi Hlt].
      pose proof (NoDup_lookup ks i j key Hnd Hi Hkey). lia.
Qed.

Lemma dict_comprehension_app ks vs (l1 l2 : list nat) acc :
  dict_comprehension ks vs (l1 ++ l2) acc
  = (acc' ← dict_comprehension ks vs l1 acc; dict_comprehension ks vs l2 acc').
Proof.
  revert acc. induction l1 as [|i l1 IH]; intros acc; simpl; [done|].
  destruct (list_getitem ks i) as [key|e]; simpl; [|done].
  destruct (list_getitem vs i) as [v|e]; simpl; [|done].
  apply IH.
Qed.

(** Fewer values than labels: the first labels are used, in order. *)
Lemma dict_comprehension_short ks vs :
  NoDup ks -> length vs <= length ks ->
  dict_comprehension ks vs (seq 0 (length vs)) [] = Ok (zip ks vs).
Proof.
  intros Hnd Hlen.
  rewrite (dict_comprehension_prefix ks vs (length vs) 0 []) by (done || lia).
  simpl. f_equal. apply zip_with_take_both'; lia.
Qed.

(** More values than labels: the first index without a label raises. *)
Lemma dict_comprehension_overflow ks vs :
  NoDup ks -> length ks < length vs ->
  dict_comprehension ks vs (seq 0 (length vs)) [] = Raise IndexError.
Proof.
  intros Hnd Hlen.
  replace (length vs) with (length ks + S (length vs - length ks - 1)) at 1 by lia.
  rewrite seq_app, dict_comprehension_app.
  rewrite (dict_comprehension_prefix ks vs (length ks) 0 []) by (done || lia).
  simpl. unfold list_getitem.
  by rewrite (lookup_ge_None_2 ks (length ks)) by lia.
Qed.
End ComprehensionBounds.

Section BuilderProperties.
  Context {Circuit Ext : Type}.
  Variable num_qubits : Circuit -> nat.
  Variable remove_final_measurements : Circuit -> Circuit.
  Variable statevector_probabilities : Circuit -> result (list Q).

  Abbreviation build :=
    (calculate_true_distribution num_qubits remove_final_measurements
       statevector_probabilities).

  Implicit Types (w : world Circuit Ext) (c : Circuit) (qc : loc).

Lemma calculate_true_distribution_returns qc w c (probabilities : list Q) :
  heap w !! qc = Some c ->
  statevector_probabilities (remove_final_measurements c) = Ok probabilities ->
  length probabilities <= 2 ^ num_qubits (remove_final_measurements c) ->
  build qc w
  = (Ok (zip (basis_states_loop (num_qubits (remove_final_measurements c)))
             probabilities),
     World (<[qc := remove_final_measurements c]> (heap w)) (ext w)).
Proof.
  intros Hc Hsv Hlen.
  rewrite (calculate_true_distribution_unfold _ _ _ qc w c Hc), Hsv.
  cbn [mbind result_mbind result_bind].
  rewrite dict_comprehension_short; [done | apply basis_states_loop_NoDup |].
  by rewrite basis_states_loop_length.
Qed.

Lemma key_set_zip_labels (n : nat) (probabilities : list Q) :
  length probabilities = 2 ^ n ->
  key_set (zip (basis_states_loop n) probabilities)
  = list_to_set (basis_states_loop n).
Proof.
  intros Hlen. unfold key_set, dict_keys.
  by rewrite fst_zip by (rewrite basis_states_loop_length; lia).
Qed.

(** X7: the builder files each probability under the label of its index:
    looking up the label of [i] in the returned mapping gives the [i]-th
    probability of the statevector. *)
Theorem calculate_true_distribution_lookup qc w c (probabilities : list Q) i p :
  heap w !! qc = Some c ->
  statevector_probabilities (remove_final_measurements c) = Ok probabilities ->
  length probabilities = 2 ^ num_qubits (remove_final_measurements c) ->
  probabilities !! i = Some p ->
  exists d,
    (build qc w).1 = Ok d
    /\ dict_getitem d (format_0b i (num_qubits (remove_final_measurements c))) = Ok p.
Proof.
  intros Hc Hsv Hlen Hi.
  rewrite (calculate_true_distribution_returns qc w c probabilities Hc Hsv) by lia.
  eexists. split; [reflexivity|].
  set (n := num_qubits (remove_final_measurements c)) in *.
  unfold dict_getitem.
  assert (Hlook : dict_lookup (zip (basis_states_loop n) probabilities)
                    (format_0b i n) = Some p); [|by rewrite Hlook].
  apply dict_lookup_Some_wf.
  - unfold dict_wf, dict_keys.
    rewrite fst_zip by (rewrite basis_states_loop_length; lia).
    apply basis_states_loop_NoDup.
  - apply list_elem_of_lookup. exists i.
    apply lookup_zip_with_Some. exists (format_0b i n), p.
    split; [done|]. split; [|done].
    rewrite basis_states_loop_fmap, list_lookup_fmap.
    apply lookup_lt_Some in Hi.
    rewrite (proj2 (lookup_seq 0 (2 ^ n) i i)) by (split; [done | lia]).
    done.
Qed.

(** X8: the builder relies on the statevector for the number of entries.
    With at most 2^n probabilities it returns them under the first labels
    in counting order; with more than 2^n it raises IndexError. *)
Theorem calculate_true_distribution_bounds qc w c (probabilities : list Q) :
  heap w !! qc = Some c ->
  statevector_probabilities (remove_final_measurements c) = Ok probabilities ->
  (length probabilities <= 2 ^ num_qubits (remove_final_measurements c) ->
   exists d,
     (build qc w).1 = Ok d
     /\ dict_keys d
        = take (length probabilities)
            (basis_states_loop (num_qubits (remove_final_measurements c)))
     /\ dict_values d = probabilities)
  /\ (2 ^ num_qubits (remove_final_measurements c) < length probabilities ->
      (build qc w).1 = Raise IndexError).
Proof.
  intros Hc Hsv. split; intros Hlen.
  - rewrite (calculate_true_distribution_returns qc w c probabilities Hc Hsv Hlen).
    eexists. split; [reflexivity|].
    pose proof (basis_states_loop_length (num_qubits (remove_final_measurements c))).
    unfold dict_keys, dict_values. split.
    + rewrite <- zip_with_take_l, fst_zip; [done|]. rewrite length_take. lia.
    + rewrite snd_zip; [done | lia].
  - rewrite (calculate_true_distribution_unfold _ _ _ qc w c Hc), Hsv.
    cbn [fst mbind result_mbind result_bind].
    apply dict_comprehension_overflow; [apply basis_states_loop_NoDup|].
    by rewrite basis_states_loop_length.
Qed.

(** X9: when the statevector computation raises, the builder raises the
    same exception, and the caller's circuit has been stripped of its
    final measurements all the same. *)
Theorem calculate_true_distribution_failure_keeps_strip qc w c e :
  heap w !! qc = Some c ->
  statevector_probabilities (remove_final_measurements c) = Raise e ->
  (build qc w).1 = Raise e
  /\ heap (build qc w).2 !! qc = Some (remove_final_measurements c)
  /\ ext (build qc w).2 = ext w.
Proof.
  intros Hc Hsv.
  rewrite (calculate_true_distribution_unfold _ _ _ qc w c Hc), Hsv.
  cbn [fst snd mbind result_mbind result_bind heap ext].
  split; [done|]. split; [apply lookup_insert_eq | done].
Qed.

(** X10: distributions built for circuits with different numbers of
    qubits cannot be compared: both metrics raise the ValueError.  For the
    same number of qubits [total_variation_distance] returns. *)
Theorem calculate_true_distribution_comparable
    qc1 w1 c1 (ps1 : list Q) qc2 w2 c2 (ps2 : list Q) (k : Z) :
  heap w1 !! qc1 = Some c1 ->
  statevector_probabilities (remove_final_measurements c1) = Ok ps1 ->
  length ps1 = 2 ^ num_qubits (remove_final_measurements c1) ->
  heap w2 !! qc2 = Some c2 ->
  statevector_probabilities (remove_final_measurements c2) = Ok ps2 ->
  length ps2 = 2 ^ num_qubits (remove_final_measurements c2) ->
  exists d1 d2,
    (build qc1 w1).1 = Ok d1 /\ (build qc2 w2).1 = Ok d2
    /\ (num_qubits (remove_final_measurements c1)
        = num_qubits (remove_final_measurements c2) ->
        exists v, total_variation_distance d1 d2 = Ok v)
    /\ (num_qubits (remove_final_measurements c1)
        <> num_qubits (remove_final_measurements c2) ->
        total_variation_distance d1 d2 = Raise (ValueError same_basis_states_msg)
        /\ compute_xeb d1 d2 k = Raise (ValueError same_basis_states_msg)).
Proof.
  intros Hc1 Hsv1 Hlen1 Hc2 Hsv2 Hlen2.
  rewrite (calculate_true_distribution_returns qc1 w1 c1 ps1 Hc1 Hsv1) by lia.
  rewrite (calculate_true_distribution_returns qc2 w2 c2 ps2 Hc2 Hsv2) by lia.
  set (n1 := num_qubits (remove_final_measurements c1)) in *.
  set (n2 := num_qubits (remove_final_measurements c2)) in *.
  eexists _, _. split; [reflexivity|]. split; [reflexivity|].
  pose proof (key_set_zip_labels n1 ps1 Hlen1) as Hk1.
  pose proof (key_set_zip_labels n2 ps2 Hlen2) as Hk2.
  split.
  - intros Hn.
    assert (Heq : key_set (zip (basis_states_loop n1) ps1)
                  = key_set (zip (basis_states_loop n2) ps2))
      by (rewrite Hk1, Hk2, Hn; done).
    destruct (tvd_returns _ _ Heq) as (v & Hv & _). eauto.
  - intros Hn.
    assert (Hne : key_set (zip (basis_states_loop n1) ps1)
                  <> key_set (zip (basis_states_loop n2) ps2)).
    { rewrite Hk1, Hk2. intros Heq. apply Hn.
      apply (f_equal size) in Heq.
      rewrite !size_list_to_set in Heq by apply basis_states_loop_NoDup.
      rewrite !basis_states_loop_length in Heq.
      apply Nat.pow_inj_r in Heq; [done | lia]. }
    split; [by apply tvd_raises | by apply xeb_raises].
Qed.

(** X11: the mapping the builder returns passes
    [check_distribution_normalization] exactly when the probabilities of
    the statevector sum to 1 within the tolerance of [np.isclose]. *)
Theorem calculate_true_distribution_normalized qc w c (probabilities : list Q) :
  heap w !! qc = Some c ->
  statevector_probabilities (remove_final_measurements c) = Ok probabilities ->
  length probabilities = 2 ^ num_qubits (remove_final_measurements c) ->
  exists d,
    (build qc w).1 = Ok d
    /\ (check_distribution_normalization d = Ok (true, [])
        <-> (Qabs (Qsum id probabilities - 1) <= 1001 # 100000000)%Q).
Proof.
  intros Hc Hsv Hlen.
  rewrite (calculate_true_distribution_returns qc w c probabilities Hc Hsv) by lia.
  eexists. split; [reflexivity|].
  destruct (py_sum_values (zip (basis_states_loop
              (num_qubits (remove_final_measurements c))) probabilities))
    as (total & Hsum & Htotal).
  unfold dict_values in Htotal.
  rewrite snd_zip in Htotal by (rewrite basis_states_loop_length; lia).
  unfold check_distribution_normalization. rewrite Hsum.
  cbn [mbind result_mbind result_bind].
  rewrite <- Htotal, <- np_isclose_1.
  destruct (np_isclose total 1); split; congruence.
Qed.

End BuilderProperties.

(** ** The order of the labels *)

Section LabelOrder.
  Implicit Types (s : string) (v acc : N).

Lemma bit_value_Some (ch : ascii) (b : N) :
  bit_value ch = Some b ->
  (ch = "0"%char /\ b = 0%N) \/ (ch = "1"%char /\ b = 1%N).
Proof.
  unfold bit_value. repeat case_decide; intros [= <-]; auto.
Qed.

Lemma parse_bin_from_acc s acc :
  parse_bin_from acc s
  = (fun v => acc * 2 ^ N.of_nat (String.length s) + v)%N <$> parse_bin_from 0%N s.
Proof.
  revert acc. induction s as [|ch s IH]; intros acc.
  - simpl. f_equal. lia.
  - cbn [parse_bin_from String.length]. destruct (bit_value ch) as [b|]; [|done].
    rewrite (IH (2 * acc + b)%N), (IH (2 * 0 + b)%N).
    destruct (parse_bin_from 0%N s) as [v|]; [|done]. simpl. f_equal.
    rewrite Nat2N.inj_succ, N.pow_succ_r'. lia.
Qed.

Lemma parse_bin_from_lt s v :
  parse_bin_from 0%N s = Some v -> (v < 2 ^ N.of_nat (String.length s))%N.
Proof.
  revert v. induction s as [|ch s IH]; intros v.
  - simpl. intros [= <-]. lia.
  - cbn [parse_bin_from String.length].
    destruct (bit_value ch) as [b|] eqn:Hb; [|done].
    rewrite parse_bin_from_acc.
    destruct (parse_bin_from 0%N s) as [v'|]; [|done]. simpl. intros [= <-].
    specialize (IH v' eq_refl).
    rewrite Nat2N.inj_succ, N.pow_succ_r'.
    destruct (bit_value_Some ch b Hb) as [[_ ->]|[_ ->]]; lia.
Qed.

(** On binary numerals of the same length the lexicographic order of the
    strings is the order of the numbers. *)
Lemma compare_bitstrings s1 : forall s2 v1 v2,
  String.length s1 = String.length s2 ->
  parse_bin s1 = Some v1 -> parse_bin s2 = Some v2 ->
  String.compare s1 s2 = N.compare v1 v2.
Proof.
  unfold parse_bin.
  induction s1 as [|c1 s1 IH]; intros [|c2 s2] v1 v2 Hlen; try done.
  - simpl. by intros [= <-] [= <-].
  - cbn [parse_bin_from String.length] in *.
    destruct (bit_value c1) as [b1|] eqn:Hb1; [|done].
    destruct (bit_value c2) as [b2|] eqn:Hb2; [|done].
    rewrite (parse_bin_from_acc s1), (parse_bin_from_acc s2).
    destruct (parse_bin_from 0%N s1) as [v1'|] eqn:Hv1; [|done].
    destruct (parse_bin_from 0%N s2) as [v2'|] eqn:Hv2; [|done].
    simpl. intros [= <-] [= <-].
    pose proof (parse_bin_from_lt s1 v1' Hv1) as Hlt1.
    pose proof (parse_bin_from_lt s2 v2' Hv2) as Hlt2.
    assert (Hl : String.length s1 = String.length s2) by lia.
    rewrite <- Hl in Hlt2 |- *. specialize (IH s2 v1' v2' Hl eq_refl Hv2).
    destruct (bit_value_Some c1 b1 Hb1) as [[-> ->]|[-> ->]];
      destruct (bit_value_Some c2 b2 Hb2) as [[-> ->]|[-> ->]];
      cbn [Ascii.compare]; simpl (String.compare _ _); rewrite ?IH.
    + destruct (N.compare_spec v1' v2'); symmetry;
        [apply N.compare_eq_iff | apply N.compare_lt_iff | apply N.compare_gt_iff]; lia.
    + symmetry. apply N.compare_lt_iff. lia.
    + symmetry. apply N.compare_gt_iff. lia.
    + destruct (N.compare_spec v1' v2'); symmetry;
        [apply N.compare_eq_iff | apply N.compare_lt_iff | apply N.compare_gt_iff]; lia.
Qed.

(** X12: the labels are generated in strictly increasing lexicographic
    order: a label generated earlier compares below every later one. *)
Theorem basis_states_loop_increasing (n i j : nat) (si sj : string) :
  basis_states_loop n !! i = Some si ->
  basis_states_loop n !! j = Some sj ->
  i < j ->
  String.compare si sj = Lt /\ String.ltb si sj = true.
Proof.
  rewrite basis_states_loop_fmap, !list_lookup_fmap.
  intros Hi Hj Hlt.
  destruct (seq 0 (2 ^ n) !! i) as [i'|] eqn:Hi'; [|done].
  destruct (seq 0 (2 ^ n) !! j) as [j'|] eqn:Hj'; [|done].
  apply lookup_seq in Hi' as [-> Hin]. apply lookup_seq in Hj' as [-> Hjn].
  simpl in Hi, Hj. injection Hi as <-. injection Hj as <-.
  assert (Hcmp : String.compare (format_0b i n) (format_0b j n) = Lt).
  { rewrite (compare_bitstrings _ _ (N.of_nat i) (N.of_nat j)).
    - apply N.compare_lt_iff. lia.
    - by rewrite !length_format_0b.
    - apply parse_bin_format_0b.
    - apply parse_bin_format_0b. }
  split; [exact Hcmp|]. unfold String.ltb. by rewrite Hcmp.
Qed.

Lemma basis_states_loop_increasing_witness :
  String.compare "01" "10" = Lt /\ String.ltb "01" "10" = true.
Proof.
  apply (basis_states_loop_increasing 2 1 2 "01" "10");
    [vm_compute; reflexivity | vm_compute; reflexivity | lia].
Defined.

End LabelOrder.

(** ** The further properties on concrete inputs *)

Section PropertyExamples.
  Import XCircuit.

Lemma calculate_true_distribution_lookup_witness :
  exists d,
    (XCircuit.calculate_true_distribution 1%positive
       (store 1%positive flipped_and_measured)).1 = Ok d
    /\ dict_getitem d
         (format_0b 1 (n_qubits (remove_final_measurements flipped_and_measured)))
       = Ok 1%Q.
Proof.
  apply (calculate_true_distribution_lookup
           n_qubits remove_final_measurements statevector_probabilities
           1%positive (store 1%positive flipped_and_measured)
           flipped_and_measured ([0; 1; 0; 0]%Q : list Q) 1%nat 1%Q);
    vm_compute; reflexivity.
Defined.

Lemma calculate_true_distribution_bounds_witness :
  (length ([0; 1; 0; 0]%Q : list Q)
   <= 2 ^ n_qubits (remove_final_measurements flipped_and_measured) ->
   exists d,
     (XCircuit.calculate_true_distribution 1%positive
        (store 1%positive flipped_and_measured)).1 = Ok d
     /\ dict_keys d
        = take (length ([0; 1; 0; 0]%Q : list Q))
            (basis_states_loop
               (n_qubits (remove_final_measurements flipped_and_measured)))
     /\ dict_values d = ([0; 1; 0; 0]%Q : list Q))
  /\ (2 ^ n_qubits (remove_final_measurements flipped_and_measured)
      < length ([0; 1; 0; 0]%Q : list Q) ->
      (XCircuit.calculate_true_distribution 1%positive
         (store 1%positive flipped_and_measured)).1 = Raise IndexError).
Proof.
  apply (calculate_true_distribution_bounds
           n_qubits remove_final_measurements statevector_probabilities
           1%positive (store 1%positive flipped_and_measured)
           flipped_and_measured ([0; 1; 0; 0]%Q : list Q));
    vm_compute; reflexivity.
Defined.

Lemma calculate_true_distribution_failure_keeps_strip_witness :
  (XCircuit.calculate_true_distribution 1%positive
     (store 1%positive (Circuit 2 [Measure 0; X 0; Measure 1]))).1
  = Raise QiskitError
  /\ heap (XCircuit.calculate_true_distribution 1%positive
             (store 1%positive (Circuit 2 [Measure 0; X 0; Measure 1]))).2
     !! 1%positive
     = Some (remove_final_measurements (Circuit 2 [Measure 0; X 0; Measure 1]))
  /\ ext (XCircuit.calculate_true_distribution 1%positive
            (store 1%positive (Circuit 2 [Measure 0; X 0; Measure 1]))).2
     = ext (store 1%positive (Circuit 2 [Measure 0; X 0; Measure 1])).
Proof.
  apply (calculate_true_distribution_failure_keeps_strip
           n_qubits remove_final_measurements statevector_probabilities
           1%positive (store 1%positive (Circuit 2 [Measure 0; X 0; Measure 1]))
           (Circuit 2 [Measure 0; X 0; Measure 1]) QiskitError);
    vm_compute; reflexivity.
Defined.

Lemma calculate_true_distribution_comparable_witness :
  exists d1 d2,
    (XCircuit.calculate_true_distribution 1%positive
       (store 1%positive flipped_and_measured)).1 = Ok d1
    /\ (XCircuit.calculate_true_distribution 1%positive
          (store 1%positive (Circuit 1 []))).1 = Ok d2
    /\ (n_qubits (remove_final_measurements flipped_and_measured)
        = n_qubits (remove_final_measurements (Circuit 1 [])) ->
        exists v, total_variation_distance d1 d2 = Ok v)
    /\ (n_qubits (remove_final_measurements flipped_and_measured)
        <> n_qubits (remove_final_measurements (Circuit 1 [])) ->
        total_variation_distance d1 d2 = Raise (ValueError same_basis_states_msg)
        /\ compute_xeb d1 d2 2 = Raise (ValueError same_basis_states_msg)).
Proof.
  apply (calculate_true_distribution_comparable
           n_qubits remove_final_measurements statevector_probabilities
           1%positive (store 1%positive flipped_and_measured)
           flipped_and_measured ([0; 1; 0; 0]%Q : list Q)
           1%positive (store 1%positive (Circuit 1 [])) (Circuit 1 [])
           ([1; 0]%Q : list Q) 2%Z);
    vm_compute; reflexivity.
Defined.

Lemma calculate_true_distribution_normalized_witness :
  exists d,
    (XCircuit.calculate_true_distribution 1%positive
       (store 1%positive flipped_and_measured)).1 = Ok d
    /\ (check_distribution_normalization d = Ok (true, [])
        <-> (Qabs (Qsum id ([0; 1; 0; 0]%Q : list Q) - 1) <= 1001 # 100000000)%Q).
Proof.
  apply (calculate_true_distribution_normalized
           n_qubits remove_final_measurements statevector_probabilities
           1%positive (store 1%positive flipped_and_measured)
           flipped_and_measured ([0; 1; 0; 0]%Q : list Q));
    vm_compute; reflexivity.
Defined.

End PropertyExamples.

(** ** Properties of the drivers *)

Section DriverProperties.
  Context {Circuit NoiseModel Ext : Type}.
  Variable num_qubits : Circuit -> nat.
  Variable remove_final_measurements : Circuit -> Circuit.
  Variable measure_all : Circuit -> Circuit.
  Variable statevector_probabilities : Circuit -> result (list Q).
  Variable random_circuit : Z -> option Z -> M (Circuit := Circuit) (Ext := Ext) loc.
  Variable create_noise_model : Q -> M (Circuit := Circuit) (Ext := Ext) NoiseModel.
  Variable generate_emp_distribution :
    loc -> Z -> NoiseModel -> option Z -> M (Circuit := Circuit) (Ext := Ext) dict.

  Implicit Types (w : world Circuit Ext) (c : Circuit) (qc : loc).
  Local Open Scope Q_scope.

  (** The world the sampler's collaborators see: the circuit stripped, then
      measured on every qubit. *)
  Abbreviation measured w1 qc c :=
    (World (<[qc := measure_all (remove_final_measurements c)]> (heap w1)) (ext w1)).

  Abbreviation true_dist c probabilities :=
    (zip (basis_states_loop (num_qubits (remove_final_measurements c))) probabilities).

Ltac run_driver Hrc Hc Hsv Hlen Hnm Hge :=
  unfold bind; rewrite Hrc;
  rewrite (calculate_true_distribution_returns _ _ _ _ _ _ _ Hc Hsv) by lia;
  unfold in_place; cbn [heap ext];
  rewrite lookup_insert_eq, insert_insert_eq, Hnm, Hge;
  unfold lift.

Lemma tvd_truedist_empdist_run n rate shots depth w w1 w4 w5 qc c
    (probabilities : list Q) noise noisy :
  random_circuit n depth w = (Ok qc, w1) ->
  heap w1 !! qc = Some c ->
  statevector_probabilities (remove_final_measurements c) = Ok probabilities ->
  length probabilities = (2 ^ num_qubits (remove_final_measurements c))%nat ->
  create_noise_model rate (measured w1 qc c) = (Ok noise, w4) ->
  generate_emp_distribution qc shots noise depth w4 = (Ok noisy, w5) ->
  tvd_truedist_empdist num_qubits remove_final_measurements measure_all
    statevector_probabilities random_circuit create_noise_model
    generate_emp_distribution n rate shots depth w
  = (total_variation_distance noisy (true_dist c probabilities), w5).
Proof.
  intros Hrc Hc Hsv Hlen Hnm Hge. unfold tvd_truedist_empdist.
  run_driver Hrc Hc Hsv Hlen Hnm Hge. done.
Qed.

Lemma xeb_truedist_empdist_noisy_run n rate shots depth w w1 w4 w5 qc c
    (probabilities : list Q) noise noisy :
  random_circuit n depth w = (Ok qc, w1) ->
  heap w1 !! qc = Some c ->
  statevector_probabilities (remove_final_measurements c) = Ok probabilities ->
  length probabilities = (2 ^ num_qubits (remove_final_measurements c))%nat ->
  create_noise_model rate (measured w1 qc c) = (Ok noise, w4) ->
  generate_emp_distribution qc shots noise depth w4 = (Ok noisy, w5) ->
  xeb_truedist_empdist_noisy num_qubits remove_final_measurements measure_all
    statevector_probabilities random_circuit create_noise_model
    generate_emp_distribution n rate shots depth w
  = (compute_xeb noisy (true_dist c probabilities) n, w5).
Proof.
  intros Hrc Hc Hsv Hlen Hnm Hge. unfold xeb_truedist_empdist_noisy.
  run_driver Hrc Hc Hsv Hlen Hnm Hge. done.
Qed.

Lemma xeb_truedist_empdist_ideal_run n rate shots depth w w1 w4 w5 qc c
    (probabilities : list Q) noise noisy :
  random_circuit n depth w = (Ok qc, w1) ->
  heap w1 !! qc = Some c ->
  statevector_probabilities (remove_final_measurements c) = Ok probabilities ->
  length probabilities = (2 ^ num_qubits (remove_final_measurements c))%nat ->
  create_noise_model 0 (measured w1 qc c) = (Ok noise, w4) ->
  generate_emp_distribution qc shots noise depth w4 = (Ok noisy, w5) ->
  xeb_truedist_empdist_ideal num_qubits remove_final_measurements measure_all
    statevector_probabilities random_circuit create_noise_model
    generate_emp_distribution n rate shots depth w
  = (compute_xeb noisy (true_dist c probabilities) n, w5).
Proof.
  intros Hrc Hc Hsv Hlen Hnm Hge. unfold xeb_truedist_empdist_ideal.
  run_driver Hrc Hc Hsv Hlen Hnm Hge. done.
Qed.

(** X14: when the sampler's distribution does not have exactly the labels
    of the 2^k basis states as keys (an outcome never sampled is missing,
    say), [tvd_truedist_empdist] and [xeb_truedist_empdist_noisy] raise
    the ValueError. *)
Theorem drivers_raise_on_missing_outcomes n rate shots depth w w1 w4 w5 qc c
    (probabilities : list Q) noise noisy :
  random_circuit n depth w = (Ok qc, w1) ->
  heap w1 !! qc = Some c ->
  statevector_probabilities (remove_final_measurements c) = Ok probabilities ->
  length probabilities = (2 ^ num_qubits (remove_final_measurements c))%nat ->
  create_noise_model rate (measured w1 qc c) = (Ok noise, w4) ->
  generate_emp_distribution qc shots noise depth w4 = (Ok noisy, w5) ->
  key_set noisy
  <> list_to_set (basis_states_loop (num_qubits (remove_final_measurements c))) ->
  tvd_truedist_empdist num_qubits remove_final_measurements measure_all
    statevector_probabilities random_circuit create_noise_model
    generate_emp_distribution n rate shots depth w
  = (Raise (ValueError same_basis_states_msg), w5)
  /\ xeb_truedist_empdist_noisy num_qubits remove_final_measurements measure_all
       statevector_probabilities random_circuit create_noise_model
       generate_emp_distribution n rate shots depth w
     = (Raise (ValueError same_basis_states_msg), w5).
Proof.
  intros Hrc Hc Hsv Hlen Hnm Hge Hkeys.
  rewrite (tvd_truedist_empdist_run n rate shots depth w w1 w4 w5 qc c
             probabilities noise noisy) by done.
  rewrite (xeb_truedist_empdist_noisy_run n rate shots depth w w1 w4 w5 qc c
             probabilities noise noisy) by done.
  assert (Hne : key_set noisy <> key_set (true_dist c probabilities))
    by (by rewrite key_set_zip_labels).
  by rewrite (tvd_raises _ _ Hne), (xeb_raises _ _ n Hne).
Qed.

End DriverProperties.

(** ** The drivers on the reference collaborators *)

Section DriverExamples.
  Import XCircuit.

Lemma drivers_raise_on_missing_outcomes_witness :
  tvd_truedist_empdist n_qubits remove_final_measurements measure_all
    statevector_probabilities random_circuit create_noise_model
    (fun _ _ _ _ w => (Ok [("0"%string, 1%Q)], w)) 1 (1 # 2) 100 None empty_world
  = (Raise (ValueError same_basis_states_msg),
     World {[1%positive := Circuit 1 [Measure 0]]} tt)
  /\ xeb_truedist_empdist_noisy n_qubits remove_final_measurements measure_all
       statevector_probabilities random_circuit create_noise_model
       (fun _ _ _ _ w => (Ok [("0"%string, 1%Q)], w)) 1 (1 # 2) 100 None empty_world
     = (Raise (ValueError same_basis_states_msg),
        World {[1%positive := Circuit 1 [Measure 0]]} tt).
Proof.
  apply (drivers_raise_on_missing_outcomes
           n_qubits remove_final_measurements measure_all
           statevector_probabilities random_circuit create_noise_model
           (fun _ _ _ _ w => (Ok [("0"%string, 1%Q)], w))
           1 (1 # 2) 100 None empty_world
           (World {[1%positive := Circuit 1 []]} tt)
           (World {[1%positive := Circuit 1 [Measure 0]]} tt)
           (World {[1%positive := Circuit 1 [Measure 0]]} tt)
           1%positive (Circuit 1 []) ([1; 0]%Q : list Q) (1 # 2)
           [("0"%string, 1%Q)]).
  - vm_compute; reflexivity.
  - vm_compute; reflexivity.
  - vm_compute; reflexivity.
  - vm_compute; reflexivity.
  - vm_compute; reflexivity.
  - reflexivity.
  - apply (bool_decide_unpack _). vm_compute. exact I.
Defined.

End DriverExamples.

(** ** Extreme cases of the metrics and of the check *)

Section ExtremeCases.
  Local Open Scope Q_scope.
  Implicit Types (d e t : dict) (key : string).

(** X16: [check_distribution_normalization] accepts, printing nothing,
    every distribution whose values sum to exactly 1, and it rejects with
    a warning that carries the sum every distribution whose values sum to
    one half. *)
Theorem check_distribution_normalization_exact_and_half (d : dict) :
  (Qsum id (dict_values d) == 1 ->
   check_distribution_normalization d = Ok (true, []))
  /\ (Qsum id (dict_values d) == 1 # 2 ->
      exists total, total == 1 # 2
        /\ check_distribution_normalization d
           = Ok (false, [Warning_total_probability total])).
Proof.
  destruct (py_sum_values d) as (total & Hsum & Htotal).
  unfold check_distribution_normalization. rewrite Hsum.
  cbn [mbind result_mbind result_bind].
  split; intros Hs; rewrite Hs in Htotal.
  - assert (Hclose : np_isclose total 1 = true).
    { apply np_isclose_1. rewrite Htotal.
      vm_compute. discriminate. }
    by rewrite Hclose.
  - exists total. split; [exact Htotal|].
    assert (Hfar : np_isclose total 1 = false).
    { apply not_true_is_false. intros Hclose%np_isclose_1.
      rewrite Htotal in Hclose. vm_compute in Hclose. by apply Hclose. }
    by rewrite Hfar.
Qed.

End ExtremeCases.

(** ** Facts about binary64 arithmetic *)

Section Binary64Arithmetic.

Lemma binary_round_aux_sign s mx ex lx :
  binary_round_aux prec emax s mx ex lx
  = SFwith_sign s (binary_round_aux prec emax false mx ex lx).
Proof.
  unfold binary_round_aux.
  destruct (shr_fexp prec emax mx ex lx) as [mrs' e'].
  destruct (shr_fexp prec emax _ e' loc_Exact) as [mrs'' e''].
  destruct (shr_m mrs''); [done| |done].
  destruct (_ <=? _)%Z; done.
Qed.

Lemma binary_round_sign s m e :
  binary_round prec emax s m e = SFwith_sign s (binary_round prec emax false m e).
Proof.
  unfold binary_round. destruct (shl_align _ _ _) as [mz ez].
  apply binary_round_aux_sign.
Qed.

Lemma SFabs_with_sign s x : SFabs (SFwith_sign s x) = SFabs x.
Proof. by destruct x. Qed.

Lemma SFabs_binary_normalize_opp m e :
  SFabs (binary_normalize prec emax (- m) e false)
  = SFabs (binary_normalize prec emax m e false).
Proof.
  destruct m as [|p|p]; simpl; [done| |].
  - by rewrite binary_round_sign, SFabs_with_sign.
  - by rewrite (binary_round_sign true), SFabs_with_sign.
Qed.

Lemma SFabs_sub_sym x y : SFabs (SF64sub x y) = SFabs (SF64sub y x).
Proof.
  unfold SF64sub, SFsub.
  destruct x as [sx|sx| |sx mx ex], y as [sy|sy| |sy my ey]; try done;
    try (by destruct sx, sy).
  rewrite (Z.min_comm ey ex).
  rewrite <- SFabs_binary_normalize_opp. f_equal. f_equal. lia.
Qed.

Lemma SFnn_with_sign x : SFnn (SFwith_sign false x).
Proof. by destruct x. Qed.

Lemma SFnn_abs x : SFnn (SFabs x).
Proof. by destruct x. Qed.

Lemma SFnn_add x y : SFnn x -> SFnn y -> SFnn (SF64add x y).
Proof.
  unfold SF64add, SFadd.
  destruct x as [sx|sx| |sx mx ex], y as [sy|sy| |sy my ey]; simpl;
    try done; try (by intros -> ->); try (by destruct sx, sy).
  intros -> ->. simpl.
  rewrite binary_round_sign. apply SFnn_with_sign.
Qed.

Lemma SFnn_mul x y : SFnn x -> SFnn y -> SFnn (SF64mul x y).
Proof.
  unfold SF64mul, SFmul.
  destruct x as [sx|sx| |sx mx ex], y as [sy|sy| |sy my ey]; simpl;
    try done; try (by intros -> ->); try (by intros ->); try (by intros _ ->).
  intros -> ->. simpl.
  rewrite binary_round_aux_sign. apply SFnn_with_sign.
Qed.

Lemma ltb_zero_false x : (x <? 0)%float = false <-> SFnn (Prim2SF x).
Proof.
  rewrite ltb_spec. change (Prim2SF 0) with (S754_zero false).
  destruct (Prim2SF x) as [s|s| |s m e]; simpl; try done;
    destruct s; simpl; split; done.
Qed.

(** Swapping the operands of a difference does not change its magnitude. *)
Lemma abs_sub_sym (x y : float) : abs (x - y) = abs (y - x).
Proof.
  apply Prim2SF_inj. rewrite !abs_spec, !sub_spec. apply SFabs_sub_sym.
Qed.

Lemma abs_not_negative (x : float) : (abs x <? 0)%float = false.
Proof. apply ltb_zero_false. rewrite abs_spec. apply SFnn_abs. Qed.

Lemma add_not_negative (x y : float) :
  (x <? 0)%float = false -> (y <? 0)%float = false -> (x + y <? 0)%float = false.
Proof.
  rewrite !ltb_zero_false, add_spec. apply SFnn_add.
Qed.

Lemma mul_not_negative (x y : float) :
  (x <? 0)%float = false -> (y <? 0)%float = false -> (x * y <? 0)%float = false.
Proof.
  rewrite !ltb_zero_false, mul_spec. apply SFnn_mul.
Qed.

Lemma fsum_not_negative {A : Type} (f : A -> float) (l : list A) :
  (forall x, (f x <? 0)%float = false) ->
  (Binary64.fsum f l <? 0)%float = false.
Proof.
  intros Hf. unfold Binary64.fsum.
  enough (H : forall acc, (acc <? 0)%float = false ->
            (fold_left (fun a x => a + f x) l acc <? 0)%float = false)
    by (apply H; vm_compute; reflexivity).
  induction l as [|x l IH]; intros acc Hacc; simpl; [done|].
  apply IH. by apply add_not_negative.
Qed.

(** Converting ints. *)
Lemma float_of_int_0 : Binary64.float_of_int 0 = Ok 0%float.
Proof. vm_compute. reflexivity. Qed.




End Binary64Arithmetic.

(** ** The metrics in binary64: what they return *)

Section Binary64Metrics.
  Implicit Types (d e t : Binary64.dict) (key : string).

Lemma b64_lookup_is_Some d key :
  is_Some (Binary64.dict_lookup d key) <-> key ∈ Binary64.dict_keys d.
Proof.
  unfold Binary64.dict_keys. induction d as [|[k v] d IH]; simpl.
  - split; [intros [? ?]; done | intros ?%elem_of_nil; done].
  - case_decide as Hk.
    + subst. split; [intros _; apply list_elem_of_here | intros _; eauto].
    + rewrite IH, elem_of_cons. split; [by right | intros [->|?]; done].
Qed.

Lemma b64_elem_of_key_set d key :
  key ∈ Binary64.key_set d <-> key ∈ Binary64.dict_keys d.
Proof. unfold Binary64.key_set. by rewrite elem_of_list_to_set. Qed.

Lemma b64_getitem_prob d key :
  key ∈ Binary64.key_set d ->
  Binary64.dict_getitem d key = Ok (Binary64.prob d key).
Proof.
  intros [v Hv]%b64_elem_of_key_set%b64_lookup_is_Some.
  unfold Binary64.dict_getitem, Binary64.prob. by rewrite Hv.
Qed.


Lemma b64_py_sum_from_floats {A : Type} (item : A -> result Binary64.pynum)
    (f : A -> float) (l : list A) (acc : float) :
  (forall x, x ∈ l -> item x = Ok (Binary64.PyFloat (f x))) ->
  Binary64.py_sum_from (Binary64.PyFloat acc) item l
  = Ok (Binary64.PyFloat (fold_left (fun a x => a + f x)%float l acc)).
Proof.
  revert acc. induction l as [|x l IH]; intros acc Hitem; simpl; [done|].
  rewrite (Hitem x) by apply list_elem_of_here. simpl.
  apply IH. intros y Hy. apply Hitem. by apply list_elem_of_further.
Qed.

Lemma b64_py_sum_floats {A : Type} (item : A -> result Binary64.pynum)
    (f : A -> float) (l : list A) :
  (forall x, x ∈ l -> item x = Ok (Binary64.PyFloat (f x))) ->
  Binary64.py_sum item l = Ok (sum_result f l).
Proof.
  intros Hitem. unfold Binary64.py_sum. destruct l as [|x l]; [done|].
  cbn [Binary64.py_sum_from]. rewrite (Hitem x) by apply list_elem_of_here.
  cbn [mbind result_mbind result_bind Binary64.py_add Binary64.as_float].
  rewrite float_of_int_0. cbn [mbind result_mbind result_bind].
  rewrite (b64_py_sum_from_floats item f l); [done|].
  intros y Hy. apply Hitem. by apply list_elem_of_further.
Qed.

Lemma set_iteration_elem set_iter (keys : list string) key :
  Binary64.set_iteration set_iter -> key ∈ set_iter keys <-> key ∈ keys.
Proof. intros Hs. by rewrite (Hs keys), elem_of_remove_dups. Qed.

Lemma b64_tvd_returns set_iter d1 d2 :
  Binary64.set_iteration set_iter ->
  Binary64.key_set d1 = Binary64.key_set d2 ->
  Binary64.total_variation_distance set_iter d1 d2
  = Ok (Binary64.PyFloat (Binary64.tvd_value set_iter d1 d2)).
Proof.
  intros Hs Heq. unfold Binary64.total_variation_distance.
  rewrite decide_False by (intros Hne; by apply Hne).
  rewrite (b64_py_sum_floats _
             (fun key => abs (Binary64.prob d1 key - Binary64.prob d2 key))).
  - cbn [mbind result_mbind result_bind]. unfold Binary64.tvd_value.
    destruct (set_iter (Binary64.dict_keys d1)) as [|k l]; [|done].
    cbn [sum_result Binary64.py_mul Binary64.as_float].
    rewrite float_of_int_0. done.
  - intros key Hk%(set_iteration_elem _ _ _ Hs)%b64_elem_of_key_set.
    rewrite (b64_getitem_prob d1 key Hk).
    rewrite (b64_getitem_prob d2 key) by (by rewrite <- Heq). done.
Qed.






End Binary64Metrics.


(** ** Theorems on the metrics in binary64 *)

Section Binary64Claims.
  Implicit Types (d e t : Binary64.dict) (key : string).

Lemma fsum_ext {A : Type} (f g : A -> float) (l : list A) :
  (forall x, f x = g x) -> Binary64.fsum f l = Binary64.fsum g l.
Proof.
  intros Hfg. unfold Binary64.fsum. generalize 0%float as acc.
  induction l as [|x l IH]; intros acc; simpl; [done|].
  by rewrite Hfg, IH.
Qed.

Lemma set_iteration_remove_dups : Binary64.set_iteration remove_dups.
Proof. intros keys. reflexivity. Qed.

Lemma key_set_exact d : key_set (exact d) = Binary64.key_set d.
Proof.
  unfold key_set, Binary64.key_set, dict_keys, Binary64.dict_keys, exact.
  f_equal. rewrite <- list_fmap_compose. done.
Qed.

Ltac solve_valid_distribution :=
  split;
  [ repeat constructor
  | split; [|split];
    [ unfold dict_wf; apply (bool_decide_unpack _); vm_compute; exact I
    | vm_compute; repeat constructor; discriminate
    | vm_compute; reflexivity ] ].

Lemma two_qubit_uniform_valid : valid_distribution Binary64.two_qubit_uniform.
Proof. solve_valid_distribution. Defined.

Lemma two_qubit_on_00_valid : valid_distribution Binary64.two_qubit_on_00.
Proof. solve_valid_distribution. Defined.

Lemma disjoint_p_valid : valid_distribution Binary64.disjoint_p.
Proof. solve_valid_distribution. Defined.

Lemma disjoint_q_valid : valid_distribution Binary64.disjoint_q.
Proof. solve_valid_distribution. Defined.

Lemma forward_a_valid : valid_distribution Binary64.forward_a.
Proof. solve_valid_distribution. Defined.

Lemma backward_b_valid : valid_distribution Binary64.backward_b.
Proof. solve_valid_distribution. Defined.




(** C2, as the code has it: for two valid probability distributions with
    the same key set, [total_variation_distance] returns one half of the
    sum over all keys of the absolute difference of the two
    probabilities, the terms being added in binary64 in the order the key
    set is iterated.  The value returned is never negative, and the exact
    value of that expression lies between 0 and 1. *)
Theorem total_variation_distance_binary64_formula
    (set_iter : list string -> list string) (d1 d2 : Binary64.dict) :
  Binary64.set_iteration set_iter ->
  valid_distribution d1 -> valid_distribution d2 ->
  Binary64.key_set d1 = Binary64.key_set d2 ->
  exists v,
    Binary64.total_variation_distance set_iter d1 d2 = Ok (Binary64.PyFloat v)
    /\ v = (0x1p-1 * Binary64.fsum
                       (fun key => abs (Binary64.prob d1 key - Binary64.prob d2 key))
                       (set_iter (Binary64.dict_keys d1)))%float
    /\ (v <? 0)%float = false
    /\ (0 <= (1 # 2) * abs_difference_sum (exact d1) (exact d2))%Q
    /\ ((1 # 2) * abs_difference_sum (exact d1) (exact d2) <= 1)%Q.
Proof.
  intros Hs [_ H1] [_ H2] Heq.
  exists (Binary64.tvd_value set_iter d1 d2).
  split; [by apply b64_tvd_returns|]. split; [done|]. split.
  - unfold Binary64.tvd_value. apply mul_not_negative; [vm_compute; reflexivity|].
    apply fsum_not_negative. intros key. apply abs_not_negative.
  - assert (Hk : key_set (exact d1) = key_set (exact d2))
      by (by rewrite !key_set_exact).
    pose proof (abs_difference_sum_nonneg (exact d1) (exact d2)).
    pose proof (abs_difference_sum_le_2 (exact d1) (exact d2) H1 H2 Hk).
    split; lra.
Qed.

Lemma total_variation_distance_binary64_formula_witness :
  exists v,
    Binary64.total_variation_distance remove_dups
      Binary64.two_qubit_on_00 Binary64.two_qubit_uniform
    = Ok (Binary64.PyFloat v)
    /\ v = (0x1p-1 * Binary64.fsum
                       (fun key => abs (Binary64.prob Binary64.two_qubit_on_00 key
                                        - Binary64.prob Binary64.two_qubit_uniform key))
                       (remove_dups (Binary64.dict_keys Binary64.two_qubit_on_00)))%float
    /\ (v <? 0)%float = false
    /\ (0 <= (1 # 2) * abs_difference_sum (exact Binary64.two_qubit_on_00)
                         (exact Binary64.two_qubit_uniform))%Q
    /\ ((1 # 2) * abs_difference_sum (exact Binary64.two_qubit_on_00)
                    (exact Binary64.two_qubit_uniform) <= 1)%Q.
Proof.
  apply (total_variation_distance_binary64_formula remove_dups
           Binary64.two_qubit_on_00 Binary64.two_qubit_uniform).
  - exact set_iteration_remove_dups.
  - exact two_qubit_on_00_valid.
  - exact two_qubit_uniform_valid.
  - vm_compute; reflexivity.
Defined.

(** C2, as stated, fails: these two valid distributions (exact sums 1,
    same keys) are at binary64 distance 1.0000000000000002, above 1. *)
Lemma total_variation_distance_above_1 :
  valid_distribution Binary64.disjoint_p
  /\ valid_distribution Binary64.disjoint_q
  /\ Binary64.key_set Binary64.disjoint_p = Binary64.key_set Binary64.disjoint_q
  /\ Binary64.total_variation_distance remove_dups
       Binary64.disjoint_p Binary64.disjoint_q
     = Ok (Binary64.PyFloat 0x1.0000000000001p+0)
  /\ (1 <? 0x1.0000000000001p+0)%float = true.
Proof.
  split; [exact disjoint_p_valid|]. split; [exact disjoint_q_valid|].
  repeat split; vm_compute; reflexivity.
Qed.




(** C4, as the code has it: for distributions with the same key set both
    [total_variation_distance(A, B)] and [total_variation_distance(B, A)]
    return one half of the binary64 sum of the same terms |A[k] - B[k]|,
    each added in the order in which the key set of its first argument is
    iterated.  The two values are equal whenever the two orders are the
    same. *)
Theorem total_variation_distance_binary64_swap
    (set_iter : list string -> list string) (d1 d2 : Binary64.dict) :
  Binary64.set_iteration set_iter ->
  Binary64.key_set d1 = Binary64.key_set d2 ->
  exists v12 v21,
    Binary64.total_variation_distance set_iter d1 d2 = Ok (Binary64.PyFloat v12)
    /\ Binary64.total_variation_distance set_iter d2 d1 = Ok (Binary64.PyFloat v21)
    /\ v12 = (0x1p-1 * Binary64.fsum
                         (fun key => abs (Binary64.prob d1 key - Binary64.prob d2 key))
                         (set_iter (Binary64.dict_keys d1)))%float
    /\ v21 = (0x1p-1 * Binary64.fsum
                         (fun key => abs (Binary64.prob d1 key - Binary64.prob d2 key))
                         (set_iter (Binary64.dict_keys d2)))%float
    /\ (set_iter (Binary64.dict_keys d1) = set_iter (Binary64.dict_keys d2) ->
        v12 = v21).
Proof.
  intros Hs Heq.
  exists (Binary64.tvd_value set_iter d1 d2), (Binary64.tvd_value set_iter d2 d1).
  assert (H21 : Binary64.tvd_value set_iter d2 d1
                = (0x1p-1 * Binary64.fsum
                     (fun key => abs (Binary64.prob d1 key - Binary64.prob d2 key))
                     (set_iter (Binary64.dict_keys d2)))%float).
  { unfold Binary64.tvd_value. f_equal. apply fsum_ext.
    intros key. apply abs_sub_sym. }
  split; [by apply b64_tvd_returns|].
  split; [by apply b64_tvd_returns|].
  split; [done|]. split; [exact H21|].
  intros Horder. rewrite H21. unfold Binary64.tvd_value. by rewrite Horder.
Qed.

Lemma total_variation_distance_binary64_swap_witness :
  exists v12 v21,
    Binary64.total_variation_distance remove_dups
      Binary64.two_qubit_on_00 Binary64.two_qubit_uniform = Ok (Binary64.PyFloat v12)
    /\ Binary64.total_variation_distance remove_dups
         Binary64.two_qubit_uniform Binary64.two_qubit_on_00 = Ok (Binary64.PyFloat v21)
    /\ v12 = (0x1p-1 * Binary64.fsum
                (fun key => abs (Binary64.prob Binary64.two_qubit_on_00 key
                                 - Binary64.prob Binary64.two_qubit_uniform key))
                (remove_dups (Binary64.dict_keys Binary64.two_qubit_on_00)))%float
    /\ v21 = (0x1p-1 * Binary64.fsum
                (fun key => abs (Binary64.prob Binary64.two_qubit_on_00 key
                                 - Binary64.prob Binary64.two_qubit_uniform key))
                (remove_dups (Binary64.dict_keys Binary64.two_qubit_uniform)))%float
    /\ (remove_dups (Binary64.dict_keys Binary64.two_qubit_on_00)
        = remove_dups (Binary64.dict_keys Binary64.two_qubit_uniform) ->
        v12 = v21).
Proof.
  apply (total_variation_distance_binary64_swap remove_dups
           Binary64.two_qubit_on_00 Binary64.two_qubit_uniform).
  - exact set_iteration_remove_dups.
  - vm_compute; reflexivity.
Defined.

(** C4, as stated, fails: these two valid distributions have the same key
    set, their keys having been inserted in opposite orders; iterating
    each key set in insertion order, the distance is 0.21 one way and
    0.20999999999999996 the other. *)
Lemma total_variation_distance_not_symmetric :
  valid_distribution Binary64.forward_a
  /\ valid_distribution Binary64.backward_b
  /\ Binary64.key_set Binary64.forward_a = Binary64.key_set Binary64.backward_b
  /\ Binary64.total_variation_distance remove_dups
       Binary64.forward_a Binary64.backward_b
     = Ok (Binary64.PyFloat 0x1.ae147ae147ae1p-3)
  /\ Binary64.total_variation_distance remove_dups
       Binary64.backward_b Binary64.forward_a
     = Ok (Binary64.PyFloat 0x1.ae147ae147aep-3)
  /\ (0x1.ae147ae147aep-3 <? 0x1.ae147ae147ae1p-3)%float = true.
Proof.
  split; [exact forward_a_valid|]. split; [exact backward_b_valid|].
  repeat split; vm_compute; reflexivity.
Qed.

(** X20: in binary64 too the distance is never negative: for any two
    dictionaries of floats with the same key set, whatever the iteration
    order, [total_variation_distance] returns a float that is not below
    zero. *)
Theorem total_variation_distance_binary64_not_negative
    (set_iter : list string -> list string) (d1 d2 : Binary64.dict) :
  Binary64.set_iteration set_iter ->
  Binary64.key_set d1 = Binary64.key_set d2 ->
  exists v,
    Binary64.total_variation_distance set_iter d1 d2 = Ok (Binary64.PyFloat v)
    /\ (v <? 0)%float = false.
Proof.
  intros Hs Heq. exists (Binary64.tvd_value set_iter d1 d2).
  split; [by apply b64_tvd_returns|].
  unfold Binary64.tvd_value. apply mul_not_negative; [vm_compute; reflexivity|].
  apply fsum_not_negative. intros key. apply abs_not_negative.
Qed.

Lemma total_variation_distance_binary64_not_negative_witness :
  exists v,
    Binary64.total_variation_distance remove_dups
      Binary64.disjoint_p Binary64.disjoint_q = Ok (Binary64.PyFloat v)
    /\ (v <? 0)%float = false.
Proof.
  apply (total_variation_distance_binary64_not_negative remove_dups
           Binary64.disjoint_p Binary64.disjoint_q).
  - exact set_iteration_remove_dups.
  - vm_compute; reflexivity.
Defined.

End Binary64Claims.
